(** * Kerberos ticket core: a shallow embedding and its verified properties

    The development follows the Python modules that make up the
    authentication core:

    - [backend/src/utils/crypto_utils.py]  (class [CryptoUtils])
    - [backend/src/auth/kerberos_auth.py]  (class [KerberosAuth])
    - [backend/src/models/user.py]         (class [User])
    - [backend/app.py]                     (the resource endpoint)

    Python values are modelled by the inductive type [value], byte strings by
    [list byte], text by lists of Unicode code points.  Exceptions are an
    explicit [result]; the wall clock and the operating system's random
    source are threaded through a state-and-exception monad [M].  The
    third-party libraries the code calls (UTF-8 codec, base64, Fernet, json,
    datetime's ISO format, PBKDF2, bcrypt) are an interface [Libs] with the
    documented laws [LibsLaws]; module [Ref] gives a small executable model of
    that interface, which shows the laws consistent and lets every statement
    be evaluated on concrete tickets. *)

From Stdlib Require Import ZArith NArith List String Ascii Bool Lia.
From Stdlib.Strings Require Import Byte.
From stdpp Require Import base decidable option numbers list finite vector.

Import ListNotations.
Local Open Scope Z_scope.
Set Warnings "-register-all".

(** ** Python data *)

(** [bytes]: an immutable sequence of octets. *)
Definition bytes : Type := list byte.

(** [str]: a sequence of Unicode code points.  Lone surrogates are legal
    members of a Python [str]; they are what makes [str.encode] partial. *)
Definition str : Type := list N.

(** A string literal of the source, as code points. *)
Definition lit (s : string) : str :=
  List.map (fun a => N_of_ascii a) (list_ascii_of_string s).

(** The exceptions that can arise in the modelled code.  [PaddingError] is
    named by the specification only: no statement of the source raises it. *)
Inductive exn : Type :=
  | IndexError
  | KeyError (key : str)
  | TypeError
  | AttributeError
  | ValueError (msg : string)
  | UnicodeError
  | BinasciiError
  | InvalidToken
  | InvalidKey
  | JSONDecodeError
  | PaddingError.

Inductive result (A : Type) : Type :=
  | Ok (a : A)
  | Raise (e : exn).
Arguments Ok {A} a.
Arguments Raise {A} e.

(** Python values that flow through the ticket code: what [json.loads] can
    return and [json.dumps] can print.  [VNone] is both Python's [None] and
    JSON's [null]; a [VFloat] carries its IEEE-754 bit pattern. *)
Inductive value : Type :=
  | VNone
  | VBool (b : bool)
  | VInt (z : Z)
  | VFloat (bits : N)
  | VStr (s : str)
  | VList (l : list value)
  | VDict (d : list (str * value)).

(** A naive [datetime], as a count of microseconds; a [timedelta] likewise. *)
Definition datetime : Type := Z.
Definition timedelta : Type := Z.
Definition timedelta_hours (h : Z) : timedelta := h * 3600 * 1000000.

(** *** Sequences *)

(** [len(x)] *)
Definition len {A} (l : list A) : Z := Z.of_nat (length l).

(** [x[:stop]] for a possibly negative [stop]. *)
Definition slice_to {A} (stop : Z) (l : list A) : list A :=
  let stop' := if stop <? 0 then stop + len l else stop in
  take (Z.to_nat (Z.max 0 stop')) l.

(** [x[-1]] on [bytes]: the last octet as an [int], [IndexError] when empty. *)
Definition getitem_last (b : bytes) : result Z :=
  match last b with
  | Some x => Ok (Z.of_N (Byte.to_N x))
  | None => Raise IndexError
  end.

(** [[x] * n]: list repetition; a non-positive count gives the empty list. *)
Definition list_mul {A} (x : A) (n : Z) : list A := replicate (Z.to_nat n) x.

(** [bytes(ints)]: [ValueError] unless every element is in [range(256)]. *)
Fixpoint bytes_of_ints (l : list Z) : result bytes :=
  match l with
  | [] => Ok []
  | z :: l' =>
      if (z <? 0) || (255 <? z) then Raise (ValueError "bytes must be in range(0, 256)")
      else match Byte.of_N (Z.to_N z), bytes_of_ints l' with
           | Some b, Ok bs => Ok (b :: bs)
           | None, _ => Raise (ValueError "bytes must be in range(0, 256)")
           | _, Raise e => Raise e
           end
  end.

(** *** Dictionaries: association lists in insertion order *)

Fixpoint dict_lookup (k : str) (d : list (str * value)) : option value :=
  match d with
  | [] => None
  | (k', v) :: d' => if bool_decide (k = k') then Some v else dict_lookup k d'
  end.

(** [x[k]]: [KeyError] on a dictionary without [k], [TypeError] on anything
    that cannot be subscripted by a string. *)
Definition getitem (x : value) (k : str) : result value :=
  match x with
  | VDict d => match dict_lookup k d with
               | Some v => Ok v
               | None => Raise (KeyError k)
               end
  | _ => Raise TypeError
  end.

(** [x.get(k, default)]: only dictionaries have the method. *)
Definition dict_get (x : value) (k : str) (default : value) : result value :=
  match x with
  | VDict d => Ok (match dict_lookup k d with Some v => v | None => default end)
  | _ => Raise AttributeError
  end.

(** Truth value of an object, as used by [not x]. *)
Definition truthy (x : value) : bool :=
  match x with
  | VNone => false
  | VBool b => b
  | VInt z => negb (z =? 0)
  | VFloat bits => negb (N.eqb (N.land bits (2 ^ 63 - 1)) 0)
  | VStr s => negb (bool_decide (s = []))
  | VList l => match l with [] => false | _ => true end
  | VDict d => match d with [] => false | _ => true end
  end.

(** ** PKCS#7 padding ([crypto_utils.py], [_pad_data] and [_unpad_data]) *)

Definition _pad_data (data : bytes) : result bytes :=
  let padding_length := 16 - (len data) mod 16 in
  match bytes_of_ints (list_mul padding_length padding_length) with
  | Ok padding => Ok (data ++ padding)
  | Raise e => Raise e
  end.

Definition _unpad_data (padded_data : bytes) : result bytes :=
  match getitem_last padded_data with
  | Ok padding_length => Ok (slice_to (- padding_length) padded_data)
  | Raise e => Raise e
  end.

(** ** The world outside the interpreter *)

(** The wall clock is read through [datetime.now()] (local time, in
    microseconds) and through [time.time()] (whole seconds, by Fernet); the
    [k]-th reading of the process is [clock k], respectively [unix_clock k].
    Random octets come from the operating system's stream [entropy], of which
    [drawn] have been consumed. *)
Record World : Type := mkWorld {
  clock : nat -> datetime;
  unix_clock : nat -> N;
  ticks : nat;
  entropy : nat -> byte;
  drawn : nat
}.

(** Computations that read the world and may raise. *)
Definition M (A : Type) : Type := World -> result A * World.

Definition ret {A} (a : A) : M A := fun w => (Ok a, w).
Definition raise {A} (e : exn) : M A := fun w => (Raise e, w).
Definition bind {A B} (m : M A) (k : A -> M B) : M B :=
  fun w => match m w with
           | (Ok a, w') => k a w'
           | (Raise e, w') => (Raise e, w')
           end.
Definition lift {A} (r : result A) : M A := fun w => (r, w).

(** [try: body except Exception as e: handler]. *)
Definition try_except {A} (body : M A) (handler : exn -> M A) : M A :=
  fun w => match body w with
           | (Ok a, w') => (Ok a, w')
           | (Raise e, w') => handler e w'
           end.

(** A library call that either returns or raises [e]. *)
Definition or_raise {A} (e : exn) (o : option A) : M A :=
  match o with Some a => ret a | None => raise e end.

Notation "x <- m ;; k" := (bind m (fun x => k))
  (at level 100, m at next level, right associativity).

(** [datetime.now()] *)
Definition datetime_now : M datetime :=
  fun w => (Ok (clock w (ticks w)),
            mkWorld (clock w) (unix_clock w) (S (ticks w)) (entropy w) (drawn w)).

(** [int(time.time())] *)
Definition time_time : M N :=
  fun w => (Ok (unix_clock w (ticks w)),
            mkWorld (clock w) (unix_clock w) (S (ticks w)) (entropy w) (drawn w)).

(** [os.urandom(n)], which is also [secrets.token_bytes(n)]. *)
Definition os_urandom (n : nat) : M bytes :=
  fun w => (Ok (List.map (entropy w) (seq (drawn w) n)),
            mkWorld (clock w) (unix_clock w) (ticks w) (entropy w) (n + drawn w)).

(** ** The libraries the code is written against *)

Inductive hash_algorithm : Type := SHA256.

Class Libs : Type := {
  (** [s.encode('utf-8')] and [b.decode('utf-8')]; [None] is [UnicodeError] *)
  str_encode : str -> option bytes;
  bytes_decode : bytes -> option str;
  (** [base64.b64encode], [base64.b64decode] ([None]: [binascii.Error]) and
      [base64.urlsafe_b64encode] *)
  b64encode : bytes -> bytes;
  b64decode : bytes -> option bytes;
  urlsafe_b64encode : bytes -> bytes;
  (** Fernet: a token from key, timestamp (taken to fit its 8 octets), IV
      and message; opening a token without a time-to-live ([None]:
      [InvalidToken]) *)
  fernet_encrypt_from_parts : bytes -> N -> bytes -> bytes -> bytes;
  fernet_decrypt : bytes -> bytes -> option bytes;
  (** [json.dumps], [json.loads] ([None]: [JSONDecodeError]) *)
  json_dumps : value -> str;
  json_loads : str -> option value;
  (** [datetime.isoformat], [datetime.fromisoformat] to a naive datetime
      ([None]: [ValueError]; a text that carries a UTC offset cannot be
      compared with [datetime.now()] and counts as a failure too) *)
  isoformat : datetime -> str;
  fromisoformat : str -> option datetime;
  (** AES in CBC mode, without padding: [Cipher(AES(key), CBC(iv))] run over
      the data ([None]: [ValueError] for a key, IV or data of the wrong size) *)
  aes_cbc_encrypt : bytes -> bytes -> bytes -> option bytes;
  aes_cbc_decrypt : bytes -> bytes -> bytes -> option bytes;
  (** [PBKDF2HMAC(algorithm, length, salt, iterations).derive(password)] *)
  pbkdf2_hmac : hash_algorithm -> N -> bytes -> N -> bytes -> bytes;
  (** [secrets.token_urlsafe]: the text form of the octets it has drawn *)
  token_urlsafe_text : bytes -> str;
  (** bcrypt: the salt built from 16 random octets, [hashpw] and [checkpw]
      ([None]: [ValueError]) *)
  bcrypt_salt_text : bytes -> bytes;
  bcrypt_hashpw : bytes -> bytes -> option bytes;
  bcrypt_checkpw : bytes -> bytes -> option bool
}.

(** UTF-16 surrogates.  [json.dumps] prints a surrogate code point of a [str]
    as one [\u] escape, and [json.loads] joins a high surrogate escape that is
    directly followed by a low one into the single code point the pair stands
    for. *)
Definition is_high_surrogate (c : N) : bool := ((55296 <=? c) && (c <=? 56319))%N.
Definition is_low_surrogate (c : N) : bool := ((56320 <=? c) && (c <=? 57343))%N.
Definition join_surrogates (h l : N) : N :=
  (65536 + (h - 55296) * 1024 + (l - 56320))%N.

(** The text [json.loads] reads back from what [json.dumps] prints for [s]:
    [s] itself unless a high surrogate is directly followed by a low one. *)
Fixpoint json_str (s : str) : str :=
  match s with
  | [] => []
  | c :: t =>
      match t with
      | d :: t' =>
          if is_high_surrogate c && is_low_surrogate d
          then join_surrogates c d :: json_str t'
          else c :: json_str t
      | [] => [c]
      end
  end.

(** The value read back: every text inside it goes through [json_str]; keys
    are left alone (see [value_wf]). *)
Fixpoint json_read_back (v : value) : value :=
  match v with
  | VStr s => VStr (json_str s)
  | VList l => VList (List.map json_read_back l)
  | VDict d => VDict (List.map (fun kv => (fst kv, json_read_back (snd kv))) d)
  | _ => v
  end.

(** How deep lists and dictionaries are nested. *)
Fixpoint value_depth (v : value) : nat :=
  match v with
  | VList l => S (list_max (List.map value_depth l))
  | VDict d => S (list_max (List.map (fun kv => value_depth (snd kv)) d))
  | _ => 0
  end.

Fixpoint value_shape (v : value) : bool :=
  match v with
  | VNone | VBool _ | VStr _ => true
  | VInt z => (- 2 ^ 63 <=? z) && (z <? 2 ^ 63)
  | VFloat _ => false
  | VList l => forallb value_shape l
  | VDict d =>
      forallb (fun kv => value_shape (snd kv)) d
      && forallb (fun kv => bool_decide (json_str (fst kv) = fst kv)) d
      && bool_decide (NoDup (List.map fst d))
  end.

(** The values for which [json.loads (json.dumps v)] is promised to give
    [json_read_back v]: dictionaries have pairwise distinct keys at every
    depth, no key holds a surrogate pair, integers fit 64 bits, there are no
    floats (a NaN loses its payload), and the nesting stays far below the
    interpreter's recursion limit. *)
Definition value_wf (v : value) : bool :=
  value_shape v && (value_depth v <=? 32)%nat.

Definition is_ascii (s : str) : Prop := Forall (fun c => (c < 128)%N) s.

Definition ascii_bytes (s : str) : bytes :=
  List.map (fun c => match Byte.of_N c with Some b => b | None => x00 end) s.

(** What the libraries' documentation promises, as far as the proofs need. *)
Class LibsLaws (L : Libs) : Prop := {
  utf8_ascii : forall s, is_ascii s -> str_encode s = Some (ascii_bytes s);
  utf8_decode_encode : forall s b, str_encode s = Some b -> bytes_decode b = Some s;
  b64encode_ascii : forall b, exists s, is_ascii s /\ b64encode b = ascii_bytes s;
  b64decode_encode : forall b, b64decode (b64encode b) = Some b;
  fernet_decrypt_encrypt : forall key t iv m,
      length iv = 16%nat ->
      fernet_decrypt key (fernet_encrypt_from_parts key t iv m) = Some m;
  json_dumps_ascii : forall v, is_ascii (json_dumps v);
  json_loads_dumps : forall v,
      value_wf v = true -> json_loads (json_dumps v) = Some (json_read_back v);
  isoformat_ascii : forall t, is_ascii (isoformat t);
  token_urlsafe_ascii : forall b, is_ascii (token_urlsafe_text b);
  fromisoformat_isoformat : forall t, fromisoformat (isoformat t) = Some t;
  pbkdf2_length : forall salt pw,
      length (pbkdf2_hmac SHA256 32 salt 100000 pw) = 32%nat;
  (** HMAC pads a key shorter than the 64-octet block of SHA-256 with zero
      octets, so a password and the same password followed by a zero octet
      are one and the same key to it. *)
  pbkdf2_zero_padding : forall salt pw,
      (length pw < 64)%nat ->
      pbkdf2_hmac SHA256 32 salt 100000 (pw ++ [x00]) =
      pbkdf2_hmac SHA256 32 salt 100000 pw
}.

#[global] Instance byte_eq_dec : EqDecision byte := Byte.byte_eq_dec.

(** ** [models/user.py]: the [User] record and its constructor *)

Module User.
Record t : Type := mk {
  id : str;
  username : str;
  password_hash : bytes;
  roles : list str;
  created_at : datetime;
  last_login : option datetime;
  login_count : Z;
  is_active : bool
}.

(** [User.__init__]; [roles or ['user']] replaces a missing or empty list. *)
Definition __init__ (id username : str) (password_hash : bytes)
    (roles : option (list str)) : M t :=
  now <- datetime_now ;;
  ret {| id := id;
         username := username;
         password_hash := password_hash;
         roles := match roles with
                  | Some (r :: rs) => r :: rs
                  | _ => [lit "user"]
                  end;
         created_at := now;
         last_login := None;
         login_count := 0;
         is_active := true |}.
End User.

(** [os.getenv(name, default)] over the process environment. *)
Definition os_getenv (environ : str -> option str) (name default : str) : str :=
  match environ name with Some v => v | None => default end.

Section Code.
Context {L : Libs}.

(** [x.encode('utf-8')], [x.decode('utf-8')] *)
Definition encode_utf8 (s : str) : M bytes := or_raise UnicodeError (str_encode s).
Definition decode_utf8 (b : bytes) : M str := or_raise UnicodeError (bytes_decode b).

(** [Fernet.encrypt]: reads the time, draws a 16-octet IV, seals. *)
Definition Fernet_encrypt (key data : bytes) : M bytes :=
  current_time <- time_time ;;
  iv <- os_urandom 16 ;;
  ret (fernet_encrypt_from_parts key current_time iv data).

(** [Fernet.decrypt] without a time-to-live. *)
Definition Fernet_decrypt (key token : bytes) : M bytes :=
  or_raise InvalidToken (fernet_decrypt key token).

(** [datetime.fromisoformat(x)]: [TypeError] unless [x] is a [str]. *)
Definition datetime_fromisoformat (x : value) : M datetime :=
  match x with
  | VStr s => or_raise (ValueError "Invalid isoformat string") (fromisoformat s)
  | _ => raise TypeError
  end.

(** *** [utils/crypto_utils.py], class [CryptoUtils]

    The [print] calls of the handlers write to standard output only; they
    are taken to succeed and are left out, so a handler that prints and
    re-raises is [fun e => raise e]. *)

Record CryptoUtils : Type := mkCryptoUtils {
  salt : bytes;
  _fernet_key : bytes  (* [self.fernet] is [Fernet(self._fernet_key)] *)
}.

Definition _derive_key (environ : str -> option str) (salt : bytes) : M bytes :=
  password <- encode_utf8 (os_getenv environ (lit "CRYPTO_PASSWORD") (lit "kerberos-password")) ;;
  let key := pbkdf2_hmac SHA256 32 salt 100000 password in
  ret (urlsafe_b64encode key).

Definition CryptoUtils__init__ (environ : str -> option str) : M CryptoUtils :=
  salt <- encode_utf8 (os_getenv environ (lit "CRYPTO_SALT") (lit "kerberos-salt")) ;;
  _fernet_key <- _derive_key environ salt ;;
  ret (mkCryptoUtils salt _fernet_key).

Definition encrypt_data (self : CryptoUtils) (data : str) : M bytes :=
  try_except
    (plain <- encode_utf8 data ;;
     Fernet_encrypt (_fernet_key self) plain)
    (fun e => raise e).

Definition decrypt_data (self : CryptoUtils) (encrypted_data : bytes) : M str :=
  try_except
    (decrypted_bytes <- Fernet_decrypt (_fernet_key self) encrypted_data ;;
     decode_utf8 decrypted_bytes)
    (fun e => raise e).

(** [secrets.token_urlsafe(32)] *)
Definition generate_session_key : M str :=
  tok <- os_urandom 32 ;;
  ret (token_urlsafe_text tok).

Definition hash_password (password : str) (salt : option bytes) : M (bytes * bytes) :=
  salt <- match salt with
          | None => os_urandom 32
          | Some s => ret s
          end ;;
  pw <- encode_utf8 password ;;
  let password_hash := pbkdf2_hmac SHA256 32 salt 100000 pw in
  ret (password_hash, salt).

(** [kdf.verify] raises [InvalidKey] unless the derived key equals the
    expected one. *)
Definition verify_password (password : str) (password_hash salt : bytes) : M bool :=
  try_except
    (pw <- encode_utf8 password ;;
     _ <- (if bool_decide (pbkdf2_hmac SHA256 32 salt 100000 pw = password_hash)
           then ret tt else raise InvalidKey) ;;
     ret true)
    (fun _ => ret false).

Definition aes_encrypt (plaintext : str) (key : bytes) : M (bytes * bytes) :=
  try_except
    (iv <- os_urandom 16 ;;
     plain <- encode_utf8 plaintext ;;
     padded_plaintext <- lift (_pad_data plain) ;;
     ciphertext <- or_raise (ValueError "Invalid key size")
                     (aes_cbc_encrypt key iv padded_plaintext) ;;
     ret (ciphertext, iv))
    (fun e => raise e).

Definition aes_decrypt (ciphertext key iv : bytes) : M str :=
  try_except
    (padded_plaintext <- or_raise (ValueError "Invalid key size")
                           (aes_cbc_decrypt key iv ciphertext) ;;
     plaintext <- lift (_unpad_data padded_plaintext) ;;
     decode_utf8 plaintext)
    (fun e => raise e).

(** *** [auth/kerberos_auth.py], class [KerberosAuth] *)

Record KerberosAuth : Type := mkKerberosAuth {
  secret_key : str;
  crypto_utils : CryptoUtils;
  tgt_lifetime : timedelta;
  service_ticket_lifetime : timedelta
}.

Definition KerberosAuth__init__ (environ : str -> option str) : M KerberosAuth :=
  let secret_key := os_getenv environ (lit "KERBEROS_SECRET") (lit "kerberos-secret-key") in
  crypto_utils <- CryptoUtils__init__ environ ;;
  ret (mkKerberosAuth secret_key crypto_utils (timedelta_hours 8) (timedelta_hours 2)).

(** [bcrypt.hashpw(pw.encode('utf-8'), bcrypt.gensalt())] *)
Definition bcrypt_hash_fresh (pw : str) : M bytes :=
  pwb <- encode_utf8 pw ;;
  rnd <- os_urandom 16 ;;
  or_raise (ValueError "Invalid salt") (bcrypt_hashpw pwb (bcrypt_salt_text rnd)).

(** [mock_users.get(username)] on a dictionary of users. *)
Fixpoint users_get (username : str) (d : list (str * User.t)) : option User.t :=
  match d with
  | [] => None
  | (k, u) :: d' => if bool_decide (username = k) then Some u else users_get username d'
  end.

Definition _get_user_by_username (self : KerberosAuth) (username : str)
    : M (option User.t) :=
  h1 <- bcrypt_hash_fresh (lit "admin123") ;;
  u1 <- User.__init__ (lit "1") (lit "admin") h1 (Some [lit "admin"; lit "user"]) ;;
  h2 <- bcrypt_hash_fresh (lit "user123") ;;
  u2 <- User.__init__ (lit "2") (lit "user") h2 (Some [lit "user"]) ;;
  h3 <- bcrypt_hash_fresh (lit "guest123") ;;
  u3 <- User.__init__ (lit "3") (lit "guest") h3 (Some [lit "guest"]) ;;
  let mock_users := [(lit "admin", u1); (lit "user", u2); (lit "guest", u3)] in
  ret (users_get username mock_users).

Definition _verify_password (self : KerberosAuth) (password : str)
    (password_hash : bytes) : M bool :=
  try_except
    (pwb <- encode_utf8 password ;;
     or_raise (ValueError "Invalid salt") (bcrypt_checkpw pwb password_hash))
    (fun _ => ret false).

(** The body of [authenticate_user], with the credential lookup, which the
    source reaches through [self] at run time, as a parameter. *)
Definition authenticate_user_via (lookup : str -> M (option User.t))
    (self : KerberosAuth) (username password : str) : M (option User.t) :=
  try_except
    (user <- lookup username ;;
     match user with
     | Some u =>
         ok <- _verify_password self password (User.password_hash u) ;;
         if ok then ret (Some u) else ret None
     | None => ret None
     end)
    (fun _ => ret None).

Definition authenticate_user (self : KerberosAuth) (username password : str)
    : M (option User.t) :=
  authenticate_user_via (_get_user_by_username self) self username password.

Definition generate_tgt (self : KerberosAuth) (user_id username : str) : M str :=
  try_except
    (issued <- datetime_now ;;
     now' <- datetime_now ;;
     session_key <- generate_session_key ;;
     let tgt_data := VDict
       [ (lit "user_id", VStr user_id);
         (lit "username", VStr username);
         (lit "issued_at", VStr (isoformat issued));
         (lit "expires_at", VStr (isoformat (now' + tgt_lifetime self)));
         (lit "session_key", VStr session_key);
         (lit "permissions",
           VList [VStr (lit "read"); VStr (lit "write"); VStr (lit "execute")]) ] in
     encrypted_tgt <- encrypt_data (crypto_utils self) (json_dumps tgt_data) ;;
     decode_utf8 (b64encode encrypted_tgt))
    (fun e => raise e).

Definition _validate_tgt (self : KerberosAuth) (tgt : str) : M value :=
  try_except
    (raw <- encode_utf8 tgt ;;
     encrypted_data <- or_raise BinasciiError (b64decode raw) ;;
     decrypted_data <- decrypt_data (crypto_utils self) encrypted_data ;;
     tgt_data <- or_raise JSONDecodeError (json_loads decrypted_data) ;;
     e <- lift (getitem tgt_data (lit "expires_at")) ;;
     expires_at <- datetime_fromisoformat e ;;
     now <- datetime_now ;;
     if now >? expires_at then ret VNone else ret tgt_data)
    (fun _ => ret VNone).

Definition generate_service_ticket (self : KerberosAuth) (tgt service_name : str)
    : M str :=
  try_except
    (tgt_data <- _validate_tgt self tgt ;;
     _ <- (if negb (truthy tgt_data) then raise (ValueError "Invalid TGT") else ret tt) ;;
     user_id <- lift (getitem tgt_data (lit "user_id")) ;;
     username <- lift (getitem tgt_data (lit "username")) ;;
     issued <- datetime_now ;;
     now' <- datetime_now ;;
     session_key <- generate_session_key ;;
     permissions <- lift (dict_get tgt_data (lit "permissions") (VList [])) ;;
     let service_ticket_data := VDict
       [ (lit "user_id", user_id);
         (lit "username", username);
         (lit "service_name", VStr service_name);
         (lit "issued_at", VStr (isoformat issued));
         (lit "expires_at", VStr (isoformat (now' + service_ticket_lifetime self)));
         (lit "session_key", VStr session_key);
         (lit "permissions", permissions) ] in
     encrypted_ticket <-
       encrypt_data (crypto_utils self) (json_dumps service_ticket_data) ;;
     decode_utf8 (b64encode encrypted_ticket))
    (fun e => raise e).

Definition validate_service_ticket (self : KerberosAuth) (service_ticket : str)
    : M bool :=
  try_except
    (raw <- encode_utf8 service_ticket ;;
     encrypted_data <- or_raise BinasciiError (b64decode raw) ;;
     decrypted_data <- decrypt_data (crypto_utils self) encrypted_data ;;
     ticket_data <- or_raise JSONDecodeError (json_loads decrypted_data) ;;
     e <- lift (getitem ticket_data (lit "expires_at")) ;;
     expires_at <- datetime_fromisoformat e ;;
     now <- datetime_now ;;
     if now >? expires_at then ret false else ret true)
    (fun _ => ret false).

Definition get_ticket_info (self : KerberosAuth) (ticket : str) : M value :=
  try_except
    (raw <- encode_utf8 ticket ;;
     encrypted_data <- or_raise BinasciiError (b64decode raw) ;;
     decrypted_data <- decrypt_data (crypto_utils self) encrypted_data ;;
     ticket_data <- or_raise JSONDecodeError (json_loads decrypted_data) ;;
     username <- lift (dict_get ticket_data (lit "username") VNone) ;;
     service_name <- lift (dict_get ticket_data (lit "service_name") VNone) ;;
     issued_at <- lift (dict_get ticket_data (lit "issued_at") VNone) ;;
     expires_at <- lift (dict_get ticket_data (lit "expires_at") VNone) ;;
     permissions <- lift (dict_get ticket_data (lit "permissions") (VList [])) ;;
     ret (VDict
       [ (lit "username", username);
         (lit "service_name", service_name);
         (lit "issued_at", issued_at);
         (lit "expires_at", expires_at);
         (lit "permissions", permissions) ]))
    (fun _ => ret VNone).

End Code.

(** ** Notions the statements are phrased in *)

(** The world after [t] further clock readings and [d] further random octets. *)
Definition advance (w : World) (t d : nat) : World :=
  mkWorld (clock w) (unix_clock w) (t + ticks w) (entropy w) (d + drawn w).

(** The [n] random octets that lie [off] positions ahead in the stream. *)
Definition entropy_slice (w : World) (off n : nat) : bytes :=
  List.map (entropy w) (seq (off + drawn w) n).

(** The [k]-th reading of [datetime.now()] from now on, counting from 0, and
    likewise of [time.time()]. *)
Definition reading (w : World) (k : nat) : datetime := clock w (k + ticks w).
Definition unix_reading (w : World) (k : nat) : N := unix_clock w (k + ticks w).

Definition or_default (o : option value) (default : value) : value :=
  match o with Some v => v | None => default end.

(** PKCS#7 consistency of a padded block sequence, as the specification asks
    [_unpad_data] to check it: the last octet [n] is between 1 and the block
    size 16, at most the length, and the last [n] octets all equal [n]. *)
Definition pkcs7_consistent (padded : bytes) : bool :=
  match last padded with
  | None => false
  | Some x =>
      let n := N.to_nat (Byte.to_N x) in
      (1 <=? n)%nat && (n <=? 16)%nat && (n <=? length padded)%nat
      && forallb (fun y => bool_decide (y = x)) (drop (length padded - n) padded)
  end.

(** An input whose padding is inconsistent: fourteen data octets, then 07 02. *)
Definition bad_padding : bytes := replicate 14 x41 ++ [x07; x02].

(** All 256 octets; octets form a finite type. *)
Definition all_bytes : list byte :=
  omap (fun k => Byte.of_N (N.of_nat k)) (seq 0 256).

#[global] Instance byte_finite : Finite byte.
Proof.
  refine {| enum := all_bytes |}.
  - abstract (apply (bool_decide_unpack _); vm_compute; exact I).
  - abstract (intros b; apply (bool_decide_unpack _); destruct b; vm_compute; exact I).
Defined.

(** A password made of the digits 0 and 1. *)
Definition bit_password {n} (v : vec bool n) : str :=
  List.map (fun b : bool => if b then 49%N else 48%N) (vec_to_list v).

Section Notions.
Context {L : Libs}.

(** What the decoding steps shared by [_validate_tgt], [validate_service_ticket]
    and [get_ticket_info] yield: text to octets, base64, Fernet, UTF-8, JSON. *)
Definition open_ticket (self : KerberosAuth) (ticket : str) : option value :=
  match str_encode ticket with
  | Some raw =>
      match b64decode raw with
      | Some encrypted_data =>
          match fernet_decrypt (_fernet_key (crypto_utils self)) encrypted_data with
          | Some decrypted_bytes =>
              match bytes_decode decrypted_bytes with
              | Some decrypted_data => json_loads decrypted_data
              | None => None
              end
          | None => None
          end
      | None => None
      end
  | None => None
  end.

(** The exception with which opening a ticket fails. *)
Definition open_error (self : KerberosAuth) (ticket : str) : exn :=
  match str_encode ticket with
  | None => UnicodeError
  | Some raw =>
      match b64decode raw with
      | None => BinasciiError
      | Some encrypted_data =>
          match fernet_decrypt (_fernet_key (crypto_utils self)) encrypted_data with
          | None => InvalidToken
          | Some decrypted_bytes =>
              match bytes_decode decrypted_bytes with
              | None => UnicodeError
              | Some _ => JSONDecodeError
              end
          end
      end
  end.

(** The expiry instant an opened ticket carries, if it has a readable one. *)
Definition expiry_of (ticket_data : value) : option datetime :=
  match ticket_data with
  | VDict d =>
      match dict_lookup (lit "expires_at") d with
      | Some (VStr e) => fromisoformat e
      | _ => None
      end
  | _ => None
  end.

(** [ticket] is the base64 text of the envelope sealed at time [t] with [iv]. *)
Definition seals (self : KerberosAuth) (ticket : str) (envelope : value)
    (t : N) (iv : bytes) : Prop :=
  exists plain,
    str_encode (json_dumps envelope) = Some plain /\
    str_encode ticket =
      Some (b64encode (fernet_encrypt_from_parts
                         (_fernet_key (crypto_utils self)) t iv plain)).

(** The read-only view [get_ticket_info] builds from an opened ticket. *)
Definition ticket_view (d : list (str * value)) : value :=
  VDict
    [ (lit "username", or_default (dict_lookup (lit "username") d) VNone);
      (lit "service_name", or_default (dict_lookup (lit "service_name") d) VNone);
      (lit "issued_at", or_default (dict_lookup (lit "issued_at") d) VNone);
      (lit "expires_at", or_default (dict_lookup (lit "expires_at") d) VNone);
      (lit "permissions", or_default (dict_lookup (lit "permissions") d) (VList [])) ].

(** The three ways a login can fail: the lookup raises, the user is unknown,
    or the password does not verify. *)
Definition authentication_fails (lookup : str -> M (option User.t))
    (self : KerberosAuth) (username password : str) (w : World) : Prop :=
  (exists e, fst (lookup username w) = Raise e) \/
  fst (lookup username w) = Ok None \/
  (exists u, fst (lookup username w) = Ok (Some u) /\
     fst (_verify_password self password (User.password_hash u)
            (snd (lookup username w))) = Ok false).

(** The permission list every ticket-granting ticket is issued with. *)
Definition default_permissions : value :=
  VList [VStr (lit "read"); VStr (lit "write"); VStr (lit "execute")].

(** The envelope [generate_tgt] builds in world [w]. *)
Definition tgt_envelope (self : KerberosAuth) (user_id username : str) (w : World)
    : list (str * value) :=
  [ (lit "user_id", VStr user_id);
    (lit "username", VStr username);
    (lit "issued_at", VStr (isoformat (reading w 0)));
    (lit "expires_at", VStr (isoformat (reading w 1 + tgt_lifetime self)));
    (lit "session_key", VStr (token_urlsafe_text (entropy_slice w 0 32)));
    (lit "permissions", default_permissions) ].

(** The envelope [generate_service_ticket] builds in world [w] from the
    opened ticket-granting ticket [d]; the first clock reading has gone into
    the expiry check. *)
Definition service_envelope (self : KerberosAuth) (d : list (str * value))
    (service_name : str) (w : World) : list (str * value) :=
  [ (lit "user_id", or_default (dict_lookup (lit "user_id") d) VNone);
    (lit "username", or_default (dict_lookup (lit "username") d) VNone);
    (lit "service_name", VStr service_name);
    (lit "issued_at", VStr (isoformat (reading w 1)));
    (lit "expires_at", VStr (isoformat (reading w 2 + service_ticket_lifetime self)));
    (lit "session_key", VStr (token_urlsafe_text (entropy_slice w 0 32)));
    (lit "permissions", or_default (dict_lookup (lit "permissions") d) (VList [])) ].

End Notions.

(** ** An executable model of the library interface *)

Module Ref.

(** UTF-8 restricted to its one-octet range. *)
Definition encode_ascii (s : str) : option bytes :=
  if forallb (fun c => (c <? 128)%N) s then Some (ascii_bytes s) else None.

Definition decode_ascii (b : bytes) : option str :=
  if forallb (fun x => (Byte.to_N x <? 128)%N) b
  then Some (List.map Byte.to_N b) else None.

(** Base 16 in place of base 64: two digits per octet. *)
Definition hex_digit (n : N) : byte :=
  match Byte.of_N (if (n <? 10)%N then 48 + n else 87 + n)%N with
  | Some b => b
  | None => x00
  end.

Definition hex_value (b : byte) : option N :=
  let n := Byte.to_N b in
  if (48 <=? n)%N && (n <=? 57)%N then Some (n - 48)%N
  else if (97 <=? n)%N && (n <=? 102)%N then Some (n - 87)%N
  else None.

Definition b16encode (b : bytes) : bytes :=
  flat_map (fun x => [hex_digit (Byte.to_N x / 16); hex_digit (Byte.to_N x mod 16)]) b.

Fixpoint b16decode (b : bytes) : option bytes :=
  match b with
  | [] => Some []
  | hi :: lo :: rest =>
      match hex_value hi, hex_value lo, b16decode rest with
      | Some h, Some l, Some r =>
          match Byte.of_N (16 * h + l) with Some x => Some (x :: r) | None => None end
      | _, _, _ => None
      end
  | [_] => None
  end.

(** A sealed token: version octet, IV, the key, the message. *)
Definition seal (key : bytes) (t : N) (iv m : bytes) : bytes :=
  x80 :: iv ++ key ++ m.

Definition unseal (key token : bytes) : option bytes :=
  match token with
  | v :: rest =>
      if bool_decide (v = x80) && bool_decide (take (length key) (drop 16 rest) = key)
         && (16 + length key <=? length rest)%nat
      then Some (drop (16 + length key) rest) else None
  | [] => None
  end.

(** Text as the binary digits of a positive number. *)
Fixpoint pos_digits (p : positive) : str :=
  match p with
  | xH => []
  | xO q => 48%N :: pos_digits q
  | xI q => 49%N :: pos_digits q
  end.

Fixpoint digits_pos (s : str) : option positive :=
  match s with
  | [] => Some xH
  | c :: s' =>
      match digits_pos s' with
      | Some q => if (c =? 48)%N then Some (xO q)
                  else if (c =? 49)%N then Some (xI q) else None
      | None => None
      end
  end.

(** Values as trees, which stdpp knows how to number. *)
Definition atom : Type := bool + Z + N + str.

Fixpoint to_tree (v : value) : gen_tree atom :=
  match v with
  | VNone => GenNode 0 []
  | VBool b => GenLeaf (inl (inl (inl b)))
  | VInt z => GenLeaf (inl (inl (inr z)))
  | VFloat n => GenLeaf (inl (inr n))
  | VStr s => GenLeaf (inr s)
  | VList l => GenNode 1 (List.map to_tree l)
  | VDict d => GenNode 2 (List.map (fun kv => GenNode 3 [GenLeaf (inr (fst kv)); to_tree (snd kv)]) d)
  end.

Fixpoint of_tree (t : gen_tree atom) : value :=
  match t with
  | GenLeaf (inl (inl (inl b))) => VBool b
  | GenLeaf (inl (inl (inr z))) => VInt z
  | GenLeaf (inl (inr n)) => VFloat n
  | GenLeaf (inr s) => VStr s
  | GenNode 1 ts => VList (List.map of_tree ts)
  | GenNode 2 ts =>
      VDict (List.map (fun t => match t with
                           | GenNode _ [GenLeaf (inr k); t'] => (k, of_tree t')
                           | _ => ([], VNone)
                           end) ts)
  | GenNode _ _ => VNone
  end.

Definition dumps (v : value) : str := pos_digits (encode (to_tree v)).
Definition loads (s : str) : option value :=
  match digits_pos s with
  | Some p =>
      match decode p with Some t => Some (json_read_back (of_tree t)) | None => None end
  | None => None
  end.

Definition print_instant (t : datetime) : str := pos_digits (encode (t : Z)).
Definition parse_instant (s : str) : option datetime :=
  match digits_pos s with
  | Some p => decode p
  | None => None
  end.

(** A key-derivation stand-in with the right output length: password and
    salt, each filled up with zero octets, added octet by octet. *)
Definition add_octets (a b : byte) : byte :=
  match Byte.of_N ((Byte.to_N a + Byte.to_N b) mod 256) with
  | Some x => x
  | None => x00
  end.

Definition zero_filled (n : nat) (b : bytes) : bytes := take n (b ++ replicate n x00).

Definition kdf (alg : hash_algorithm) (len : N) (salt : bytes) (it : N)
    (pw : bytes) : bytes :=
  zip_with add_octets (zero_filled (N.to_nat len) pw) (zero_filled (N.to_nat len) salt).

Definition token_text (tok : bytes) : str := List.map Byte.to_N (b16encode tok).

(** A block cipher stand-in that checks the sizes CBC insists on. *)
Definition aes_sizes_ok (key iv data : bytes) : bool :=
  (length key =? 32)%nat && (length iv =? 16)%nat && (length data mod 16 =? 0)%nat.
Definition cbc_encrypt (key iv data : bytes) : option bytes :=
  if aes_sizes_ok key iv data then Some (rev data) else None.
Definition cbc_decrypt (key iv data : bytes) : option bytes :=
  if aes_sizes_ok key iv data then Some (rev data) else None.

Definition salt_text (rnd : bytes) : bytes := b16encode rnd.
Definition hashpw (pw salt : bytes) : option bytes :=
  if (length salt =? 32)%nat then Some (salt ++ pw) else None.
Definition checkpw (pw hashed : bytes) : option bool :=
  if (32 <=? length hashed)%nat then Some (bool_decide (drop 32 hashed = pw)) else None.


#[export] Instance libs : Libs := {|
  str_encode := encode_ascii;
  bytes_decode := decode_ascii;
  b64encode := b16encode;
  b64decode := b16decode;
  urlsafe_b64encode := b16encode;
  fernet_encrypt_from_parts := seal;
  fernet_decrypt := unseal;
  json_dumps := dumps;
  json_loads := loads;
  isoformat := print_instant;
  fromisoformat := parse_instant;
  aes_cbc_encrypt := cbc_encrypt;
  aes_cbc_decrypt := cbc_decrypt;
  pbkdf2_hmac := kdf;
  token_urlsafe_text := token_text;
  bcrypt_salt_text := salt_text;
  bcrypt_hashpw := hashpw;
  bcrypt_checkpw := checkpw
|}.

(** A process started at clock reading 0 with an empty environment; the clock
    advances one second per reading, the random stream counts upwards. *)
Definition world0 : World :=
  mkWorld (fun k => 1000000 * Z.of_nat k) (fun k => N.of_nat k) 0
    (fun k => match Byte.of_N (N.of_nat k mod 256) with Some b => b | None => x00 end) 0.

(** The same process with the clock set to read [t] next. *)
Definition world_at (t : datetime) : World :=
  mkWorld (fun k => t + 1000000 * Z.of_nat k) (fun k => N.of_nat k) 0
    (entropy world0) 0.

Definition auth : KerberosAuth :=
  match fst (KerberosAuth__init__ (fun _ => None) world0) with
  | Ok a => a
  | Raise _ => mkKerberosAuth [] (mkCryptoUtils [] []) 0 0
  end.

(** The ticket-granting ticket issued to principal 1, [admin], at [world0]. *)
Definition tgt0 : str :=
  match fst (generate_tgt auth (lit "1") (lit "admin") world0) with
  | Ok t => t
  | Raise _ => []
  end.

(** The principal the mock credential store returns for [admin]. *)
Definition admin : User.t :=
  match fst (authenticate_user auth (lit "admin") (lit "admin123") world0) with
  | Ok (Some u) => u
  | _ => User.mk [] [] [] [] 0 None 0 false
  end.


(** The text of a ticket that seals [plaintext] under [self]'s key, made the
    way [generate_tgt] makes its own. *)
Definition sealed_text (self : KerberosAuth) (plaintext : str) (w : World) : str :=
  match fst ((encrypted <- encrypt_data (crypto_utils self) plaintext ;;
              decode_utf8 (b64encode encrypted)) w) with
  | Ok t => t
  | Raise _ => []
  end.

(** A ticket whose plaintext is the JSON list of 1 and 2. *)
Definition list_ticket : str :=
  sealed_text auth (json_dumps (VList [VInt 1; VInt 2])) world0.

(** A credential store that is out of reach. *)
Definition broken_store (username : str) : M (option User.t) :=
  raise (ValueError "connection refused").

End Ref.

(** ** More of the code: the remaining methods and a caller *)

(** *** Further library calls *)

(** [hashlib.sha256(data).digest()], [hmac.new(key, data, sha256).digest()],
    and [datetime.fromisoformat] in full: the instant read, with the UTC
    offset in seconds if the text carries one ([None]: [ValueError]). *)
Class MoreLibs : Type := {
  sha256 : bytes -> bytes;
  hmac_sha256 : bytes -> bytes -> bytes;
  parse_isoformat : str -> option (datetime * option Z)
}.

(** Both digests are 32 octets long; what [isoformat] prints for a naive
    datetime is read back as that datetime, without offset. *)
Class MoreLaws (L : Libs) (D : MoreLibs) : Prop := {
  sha256_length : forall data, length (sha256 data) = 32%nat;
  hmac_sha256_length : forall key data, length (hmac_sha256 key data) = 32%nat;
  parse_isoformat_isoformat : forall t, parse_isoformat (isoformat t) = Some (t, None)
}.

(** AES-256 in CBC mode on whole blocks: with a 32-octet key and a 16-octet
    IV, data of a multiple of 16 octets is encrypted, and decrypts to itself. *)
Class AesLaws (L : Libs) : Prop := {
  aes_cbc_decrypt_encrypt : forall key iv data,
      length key = 32%nat -> length iv = 16%nat ->
      (length data mod 16 = 0)%nat ->
      exists ciphertext,
        aes_cbc_encrypt key iv data = Some ciphertext /\
        aes_cbc_decrypt key iv ciphertext = Some data
}.

(** bcrypt on a password of at most 72 octets without a zero octet, under a
    salt made by [gensalt]: hashing succeeds and the hash checks. *)
Class BcryptLaws (L : Libs) : Prop := {
  bcrypt_check_hash : forall pw rnd,
      (length pw <= 72)%nat -> x00 ∉ pw -> length rnd = 16%nat ->
      exists h,
        bcrypt_hashpw pw (bcrypt_salt_text rnd) = Some h /\
        bcrypt_checkpw pw h = Some true
}.

(** The hexadecimal digit for a value below 16, as a code point. *)
Definition hex_digit_code (n : N) : N := (if n <? 10 then 48 + n else 87 + n)%N.

(** [binascii.hexlify(b).decode('ascii')], which is also [hexdigest()]. *)
Definition hex_text (b : bytes) : str :=
  flat_map (fun x => [hex_digit_code (Byte.to_N x / 16);
                      hex_digit_code (Byte.to_N x mod 16)]) b.

(** A digit [0-9] or a letter [a-f]. *)
Definition is_lower_hex (c : N) : Prop :=
  (48 <= c <= 57)%N \/ (97 <= c <= 102)%N.

(** [hmac.compare_digest] on two [str]: [TypeError] unless both are ASCII. *)
Definition compare_digest (a b : str) : result bool :=
  if forallb (fun c => (c <? 128)%N) a && forallb (fun c => (c <? 128)%N) b
  then Ok (bool_decide (a = b))
  else Raise TypeError.

Section MoreCode.
Context {L : Libs} {D : MoreLibs}.

(** *** [utils/crypto_utils.py], the remaining methods *)

(** [secrets.token_hex(16)] *)
Definition generate_nonce : M str :=
  tok <- os_urandom 16 ;;
  ret (hex_text tok).

Definition compute_hmac (data key : str) : M str :=
  k <- encode_utf8 key ;;
  d <- encode_utf8 data ;;
  ret (hex_text (hmac_sha256 k d)).

Definition verify_hmac (data key expected_hmac : str) : M bool :=
  computed_hmac <- compute_hmac data key ;;
  lift (compare_digest computed_hmac expected_hmac).

Definition generate_aes_key : M bytes := os_urandom 32.

Definition encode_base64 (data : bytes) : M str := decode_utf8 (b64encode data).

Definition decode_base64 (data : str) : M bytes :=
  raw <- encode_utf8 data ;;
  or_raise BinasciiError (b64decode raw).

Definition hash_sha256 (data : str) : M str :=
  d <- encode_utf8 data ;;
  ret (hex_text (sha256 d)).

Definition secure_compare (a b : str) : M bool := lift (compare_digest a b).

(** *** [app.py], the resource endpoint

    [access_resource] as a function of what Flask hands it: the path
    segment [resource_id] and the [Service-Ticket] header, if any.  The
    answer is the JSON body with its status code; [logger.error] is left
    out. *)
Definition jsonify (body : list (str * value)) (status : Z) : M (value * Z) :=
  ret (VDict body, status).

Definition access_resource (kerberos_auth : KerberosAuth)
    (service_ticket_header : option str) (resource_id : str) : M (value * Z) :=
  try_except
    (match service_ticket_header with
     | None | Some [] =>
         jsonify [(lit "error", VStr (lit "Service ticket required"))] 401
     | Some service_ticket =>
         ok <- validate_service_ticket kerberos_auth service_ticket ;;
         if negb ok
         then jsonify [(lit "error", VStr (lit "Invalid service ticket"))] 403
         else
           now <- datetime_now ;;
           jsonify
             [ (lit "resource_id", VStr resource_id);
               (lit "data", VStr (lit "Protected data for resource " ++ resource_id));
               (lit "accessed_at", VStr (isoformat now)) ] 200
     end)
    (fun _ => jsonify [(lit "error", VStr (lit "Failed to access resource"))] 500).

End MoreCode.

(** *** [models/user.py], the methods of [User] *)

Module UserMethods.

(** [role in self.roles] *)
Definition has_role (self : User.t) (role : str) : bool :=
  existsb (fun r => bool_decide (r = role)) (User.roles self).

Definition with_roles (self : User.t) (roles : list str) : User.t :=
  User.mk (User.id self) (User.username self) (User.password_hash self) roles
    (User.created_at self) (User.last_login self) (User.login_count self)
    (User.is_active self).

(** [self.roles.append(role)] unless the role is there. *)
Definition add_role (self : User.t) (role : str) : User.t :=
  if negb (has_role self role) then with_roles self (User.roles self ++ [role])
  else self.

(** [list.remove(x)]: the first occurrence goes. *)
Fixpoint list_remove (x : str) (l : list str) : list str :=
  match l with
  | [] => []
  | y :: l' => if bool_decide (y = x) then l' else y :: list_remove x l'
  end.

Definition remove_role (self : User.t) (role : str) : User.t :=
  if has_role self role then with_roles self (list_remove role (User.roles self))
  else self.

Definition is_admin (self : User.t) : bool := has_role self (lit "admin").

Definition update_login (self : User.t) : M User.t :=
  now <- datetime_now ;;
  ret (User.mk (User.id self) (User.username self) (User.password_hash self)
         (User.roles self) (User.created_at self) (Some now)
         (User.login_count self + 1) (User.is_active self)).

Section Serialisation.
Context {L : Libs} {D : MoreLibs}.

(** A [datetime] object is always true, so [created_at] is always printed. *)
Definition to_dict (self : User.t) : value :=
  VDict
    [ (lit "id", VStr (User.id self));
      (lit "username", VStr (User.username self));
      (lit "roles", VList (List.map VStr (User.roles self)));
      (lit "created_at", VStr (isoformat (User.created_at self)));
      (lit "last_login",
        match User.last_login self with
        | Some t => VStr (isoformat t)
        | None => VNone
        end);
      (lit "login_count", VInt (User.login_count self));
      (lit "is_active", VBool (User.is_active self)) ].

Definition to_json (self : User.t) : str := json_dumps (to_dict self).

(** The user whose names and roles are [self]'s as JSON reads them back. *)
Definition read_back (self : User.t) : User.t :=
  User.mk (json_str (User.id self)) (json_str (User.username self))
    (User.password_hash self) (List.map json_str (User.roles self))
    (User.created_at self) (User.last_login self) (User.login_count self)
    (User.is_active self).

(** What [from_dict] builds: it stores whatever the dictionary holds, so the
    fields of the object it returns are Python values of any type, and its
    dates are whatever [fromisoformat] has read, with or without offset. *)
Record obj : Type := mk_obj {
  obj_id : value;
  obj_username : value;
  obj_password_hash : value;
  obj_roles : value;
  obj_created_at : datetime * option Z;
  obj_last_login : option (datetime * option Z);
  obj_login_count : value;
  obj_is_active : value
}.

(** [datetime.fromisoformat(x)], keeping an offset. *)
Definition datetime_fromisoformat_any (x : value) : M (datetime * option Z) :=
  match x with
  | VStr s => or_raise (ValueError "Invalid isoformat string") (parse_isoformat s)
  | _ => raise TypeError
  end.

(** ['k' in d and d['k']] *)
Definition present_and_true (d : list (str * value)) (k : str) : bool :=
  match dict_lookup k d with Some v => truthy v | None => false end.

(** [data['id']] comes first and raises [TypeError] on anything but a
    dictionary; from there on [data] is one. *)
Definition from_dict (data : value) : M obj :=
  match data with
  | VDict d =>
      id <- lift (getitem data (lit "id")) ;;
      username <- lift (getitem data (lit "username")) ;;
      password_hash <- lift (getitem data (lit "password_hash")) ;;
      roles <- lift (dict_get data (lit "roles") (VList [VStr (lit "user")])) ;;
      now <- datetime_now ;;
      let roles := if truthy roles then roles else VList [VStr (lit "user")] in
      created_at <- (if present_and_true d (lit "created_at")
                     then c <- lift (getitem data (lit "created_at")) ;;
                          datetime_fromisoformat_any c
                     else ret (now, None)) ;;
      last_login <- (if present_and_true d (lit "last_login")
                     then c <- lift (getitem data (lit "last_login")) ;;
                          t <- datetime_fromisoformat_any c ;; ret (Some t)
                     else ret None) ;;
      login_count <- lift (dict_get data (lit "login_count") (VInt 0)) ;;
      is_active <- lift (dict_get data (lit "is_active") (VBool true)) ;;
      ret (mk_obj id username password_hash roles created_at last_login
             login_count is_active)
  | _ => raise TypeError
  end.

End Serialisation.
End UserMethods.

(** *** The library model, continued *)

Module RefMore.

(** Digest stand-ins of the right length. *)
Definition digest32 (data : bytes) : bytes := take 32 (data ++ replicate 32 x00).

#[export] Instance more : MoreLibs := {|
  sha256 := digest32;
  hmac_sha256 := fun key data => digest32 (key ++ data);
  parse_isoformat := fun s =>
    match Ref.parse_instant s with Some t => Some (t, None) | None => None end
|}.

(** A 32-octet AES key made of the octet 2A. *)
Definition key32 : bytes := replicate 32 x2a.

(** The principal the mock credential store returns for [guest]. *)
Definition guest : User.t :=
  match fst (authenticate_user (L := Ref.libs) Ref.auth (lit "guest") (lit "guest123")
               Ref.world0) with
  | Ok (Some u) => u
  | _ => User.mk [] [] [] [] 0 None 0 false
  end.

(** An environment that sets [KERBEROS_SECRET] and nothing else. *)
Definition environ_with_secret (name : str) : option str :=
  if bool_decide (name = lit "KERBEROS_SECRET") then Some (lit "another-secret")
  else None.

End RefMore.

(** * Proofs *)

(** Runs the monad's plumbing; library calls and world accesses stay put. *)
Ltac unfold_monad :=
  cbv [try_except bind ret raise lift or_raise
       encode_utf8 decode_utf8 Fernet_decrypt datetime_fromisoformat].

(** ** Octets and text *)

Lemma byte_of_small (z : Z) :
  0 <= z <= 255 ->
  exists b, Byte.of_N (Z.to_N z) = Some b /\ Z.of_N (Byte.to_N b) = z.
Proof.
  intros Hz. pose proof (Byte.to_of_N_option_map (Z.to_N z)) as H.
  destruct (Byte.of_N (Z.to_N z)) as [b|] eqn:E; simpl in H.
  - exists b. split; [reflexivity|]. apply Byte.to_of_N in E. lia.
  - destruct (N.leb_spec (Z.to_N z) 255); [discriminate | lia].
Qed.

Lemma ascii_bytes_to_N (b : bytes) : ascii_bytes (List.map Byte.to_N b) = b.
Proof.
  unfold ascii_bytes. rewrite List.map_map.
  induction b as [|x b IH]; simpl; [reflexivity|].
  rewrite Byte.of_to_N, IH. reflexivity.
Qed.

Lemma to_N_ascii_bytes (s : str) :
  is_ascii s -> List.map Byte.to_N (ascii_bytes s) = s.
Proof.
  induction 1 as [|c s Hc _ IH]; simpl; [reflexivity|].
  rewrite IH. f_equal.
  destruct (Byte.of_N c) as [b|] eqn:E.
  - apply Byte.to_of_N. exact E.
  - pose proof (Byte.to_of_N_option_map c) as H. rewrite E in H. simpl in H.
    destruct (N.leb_spec c 255); [discriminate | lia].
Qed.

Lemma forallb_ascii (s : str) :
  forallb (fun c => (c <? 128)%N) s = true <-> is_ascii s.
Proof.
  unfold is_ascii. rewrite forallb_forall, List.Forall_forall.
  split; intros H c Hc; specialize (H c Hc); apply N.ltb_lt; exact H.
Qed.

Lemma card_byte : card byte = 256%nat.
Proof. reflexivity. Qed.

Lemma bit_password_ascii {n} (v : vec bool n) : is_ascii (bit_password v).
Proof.
  unfold is_ascii, bit_password. apply List.Forall_forall. intros c Hc.
  apply List.in_map_iff in Hc as (b & <- & _). destruct b; lia.
Qed.

Lemma bit_password_inj {n} (v1 v2 : vec bool n) :
  bit_password v1 = bit_password v2 -> v1 = v2.
Proof.
  intros H. apply vec_to_list_inj2. unfold bit_password in H.
  revert H. generalize (vec_to_list v1) (vec_to_list v2). clear.
  induction l as [|a l IH]; intros [|b l']; simpl; try discriminate; [reflexivity|].
  intros [= Hab Hl]. f_equal; [destruct a, b; (reflexivity || discriminate) | auto].
Qed.

(** There are more 257-digit passwords than 32-octet keys. *)
Lemma card_keys_lt_passwords :
  (card { l : list byte | length l = 32%nat } < card (vec bool 257))%nat.
Proof.
  rewrite list_card, vec_card, card_byte.
  change (card bool) with 2%nat.
  change (256 ^ 32)%nat with ((2 ^ 8) ^ 32)%nat.
  rewrite <- Nat.pow_mul_r.
  apply Nat.pow_lt_mono_r; lia.
Qed.

(** ** The library model satisfies the laws *)

Module RefLaws.

Lemma encode_ascii_ok s : is_ascii s -> Ref.encode_ascii s = Some (ascii_bytes s).
Proof.
  intros H. unfold Ref.encode_ascii. apply forallb_ascii in H. rewrite H. reflexivity.
Qed.

Lemma decode_encode_ascii s b :
  Ref.encode_ascii s = Some b -> Ref.decode_ascii b = Some s.
Proof.
  unfold Ref.encode_ascii, Ref.decode_ascii.
  destruct (forallb _ s) eqn:E; [|discriminate]. intros [= <-].
  apply forallb_ascii in E.
  replace (forallb _ (ascii_bytes s)) with true.
  - rewrite to_N_ascii_bytes by exact E. reflexivity.
  - symmetry. apply forallb_forall. intros x Hx.
    apply (List.in_map Byte.to_N) in Hx. rewrite to_N_ascii_bytes in Hx by exact E.
    apply N.ltb_lt. unfold is_ascii in E. rewrite List.Forall_forall in E. auto.
Qed.

Lemma hex_pair (x : byte) :
  Ref.hex_value (Ref.hex_digit (Byte.to_N x / 16)) = Some (Byte.to_N x / 16)%N /\
  Ref.hex_value (Ref.hex_digit (Byte.to_N x mod 16)) = Some (Byte.to_N x mod 16)%N /\
  (Byte.to_N (Ref.hex_digit (Byte.to_N x / 16)) < 128)%N /\
  (Byte.to_N (Ref.hex_digit (Byte.to_N x mod 16)) < 128)%N.
Proof. destruct x; vm_compute; repeat split; reflexivity. Qed.

Lemma b16decode_encode b : Ref.b16decode (Ref.b16encode b) = Some b.
Proof.
  induction b as [|x b IH]; [reflexivity|].
  cbn [Ref.b16encode flat_map app Ref.b16decode].
  fold (Ref.b16encode b).
  destruct (hex_pair x) as (-> & -> & _ & _). rewrite IH.
  rewrite <- (N.div_mod' (Byte.to_N x) 16).
  rewrite Byte.of_to_N. reflexivity.
Qed.

Lemma b16encode_ascii b : is_ascii (List.map Byte.to_N (Ref.b16encode b)).
Proof.
  unfold is_ascii. induction b as [|x b IH]; [constructor|].
  cbn [Ref.b16encode flat_map app List.map]. fold (Ref.b16encode b).
  destruct (hex_pair x) as (_ & _ & H1 & H2).
  constructor; [exact H1|]. constructor; [exact H2|]. exact IH.
Qed.

Lemma unseal_seal key t iv m :
  length iv = 16%nat -> Ref.unseal key (Ref.seal key t iv m) = Some m.
Proof.
  intros Hiv. unfold Ref.unseal, Ref.seal.
  rewrite bool_decide_eq_true_2 by reflexivity.
  rewrite drop_app_length' by (symmetry; exact Hiv).
  rewrite take_app_length.
  rewrite bool_decide_eq_true_2 by reflexivity.
  replace (16 + length key <=? length (iv ++ key ++ m))%nat with true.
  - cbn [andb]. rewrite <- Hiv, <- length_app, app_assoc, drop_app_length. reflexivity.
  - symmetry. apply Nat.leb_le. rewrite !length_app. lia.
Qed.

Lemma digits_pos_digits p : Ref.digits_pos (Ref.pos_digits p) = Some p.
Proof. induction p as [q IH|q IH|]; simpl; rewrite ?IH; reflexivity. Qed.

Lemma pos_digits_ascii p : is_ascii (Ref.pos_digits p).
Proof. unfold is_ascii. induction p; simpl; constructor; auto; lia. Qed.

Lemma of_to_tree : forall v, Ref.of_tree (Ref.to_tree v) = v.
Proof.
  fix IH 1. intros [ | b | z | n | s | l | d]; simpl; try reflexivity.
  - f_equal. induction l as [|x l IHl]; simpl; [reflexivity|].
    rewrite IH, IHl. reflexivity.
  - f_equal. induction d as [|[k x] d IHd]; simpl; [reflexivity|].
    rewrite IH, IHd. reflexivity.
Qed.

Lemma loads_dumps v : Ref.loads (Ref.dumps v) = Some (json_read_back v).
Proof.
  unfold Ref.loads, Ref.dumps.
  rewrite digits_pos_digits, decode_encode, of_to_tree. reflexivity.
Qed.

Lemma parse_print_instant t : Ref.parse_instant (Ref.print_instant t) = Some t.
Proof.
  unfold Ref.parse_instant, Ref.print_instant.
  rewrite digits_pos_digits. apply decode_encode.
Qed.

Lemma length_zero_filled n b : length (Ref.zero_filled n b) = n.
Proof.
  unfold Ref.zero_filled. rewrite length_take, length_app, length_replicate. lia.
Qed.

Lemma kdf_length alg len salt it pw :
  length (Ref.kdf alg len salt it pw) = N.to_nat len.
Proof.
  unfold Ref.kdf. rewrite length_zip_with, !length_zero_filled. lia.
Qed.

Lemma zero_filled_zero n b : Ref.zero_filled n (b ++ [x00]) = Ref.zero_filled n b.
Proof.
  unfold Ref.zero_filled. rewrite <- app_assoc.
  change ([x00] ++ replicate n x00) with (replicate (S n) x00).
  rewrite !take_app, !take_replicate. f_equal. f_equal. lia.
Qed.

Lemma kdf_zero_padding alg len salt it pw :
  Ref.kdf alg len salt it (pw ++ [x00]) = Ref.kdf alg len salt it pw.
Proof. unfold Ref.kdf. rewrite zero_filled_zero. reflexivity. Qed.

Lemma laws : LibsLaws Ref.libs.
Proof.
  constructor.
  - exact encode_ascii_ok.
  - exact decode_encode_ascii.
  - intros b. exists (List.map Byte.to_N (Ref.b16encode b)). split.
    + apply b16encode_ascii.
    + symmetry. apply ascii_bytes_to_N.
  - exact b16decode_encode.
  - exact unseal_seal.
  - intros v. apply pos_digits_ascii.
  - intros v _. apply loads_dumps.
  - intros t. apply pos_digits_ascii.
  - intros b. apply b16encode_ascii.
  - exact parse_print_instant.
  - intros salt pw. apply kdf_length.
  - intros salt pw _. apply kdf_zero_padding.
Qed.

End RefLaws.

(** ** PKCS#7 padding *)

Lemma bytes_of_ints_replicate (k : nat) (z : Z) (b : byte) :
  0 <= z <= 255 -> Byte.of_N (Z.to_N z) = Some b ->
  bytes_of_ints (replicate k z) = Ok (replicate k b).
Proof.
  intros Hz Hb. induction k as [|k IH]; simpl; [reflexivity|].
  replace ((z <? 0) || (255 <? z)) with false.
  - rewrite Hb, IH. reflexivity.
  - symmetry. apply orb_false_iff. split; apply Z.ltb_ge; lia.
Qed.

Lemma getitem_last_snoc (l : bytes) (b : byte) :
  getitem_last (l ++ [b]) = Ok (Z.of_N (Byte.to_N b)).
Proof. unfold getitem_last. rewrite last_snoc. reflexivity. Qed.

Lemma slice_to_neg {A} (l : list A) (n : Z) :
  0 < n -> slice_to (- n) l = take (length l - Z.to_nat n) l.
Proof.
  intros Hn. unfold slice_to, len.
  replace (- n <? 0) with true by (symmetry; apply Z.ltb_lt; lia).
  f_equal. lia.
Qed.

(** What [_pad_data] returns: the data followed by [n] octets of value [n],
    [n] being the distance to the next multiple of 16. *)
Lemma _pad_data_eq (data : bytes) :
  exists b : byte,
    Z.of_N (Byte.to_N b) = 16 - len data mod 16 /\
    _pad_data data = Ok (data ++ replicate (Z.to_nat (16 - len data mod 16)) b).
Proof.
  pose proof (Z.mod_pos_bound (len data) 16 ltac:(lia)) as Hm.
  destruct (byte_of_small (16 - len data mod 16)) as (b & Hb & Hv); [lia|].
  exists b. split; [exact Hv|].
  unfold _pad_data, list_mul.
  rewrite (bytes_of_ints_replicate _ _ b) by (lia || exact Hb). reflexivity.
Qed.

(** C10. For every byte string [d], [_pad_data d] succeeds with a result whose
    length is a positive multiple of 16 strictly greater than [len d], and
    [_unpad_data] maps that result back to [d]. *)
Theorem pad_unpad_roundtrip (d : bytes) :
  exists p,
    _pad_data d = Ok p /\
    (0 < len p /\ len p mod 16 = 0 /\ len d < len p) /\
    _unpad_data p = Ok d.
Proof.
  pose proof (Z.mod_pos_bound (len d) 16 ltac:(lia)) as Hm.
  destruct (_pad_data_eq d) as (b & Hv & Hp).
  set (n := 16 - len d mod 16) in *.
  exists (d ++ replicate (Z.to_nat n) b). split; [exact Hp|].
  assert (Hlen : len (d ++ replicate (Z.to_nat n) b) = len d + n).
  { unfold len. rewrite length_app, length_replicate. lia. }
  split.
  - rewrite Hlen. split; [unfold len in *; lia|]. split; [|lia].
    pose proof (Z.div_mod (len d) 16 ltac:(lia)) as Hdm.
    replace (len d + n) with ((len d / 16 + 1) * 16) by lia.
    apply Z.mod_mul. lia.
  - unfold _unpad_data.
    destruct (Z.to_nat n) as [|k] eqn:Hk; [lia|].
    rewrite replicate_S_end, app_assoc, getitem_last_snoc, Hv.
    rewrite slice_to_neg by lia. f_equal.
    rewrite <- app_assoc, <- replicate_S_end, <- Hk.
    rewrite length_app, length_replicate.
    replace (length d + Z.to_nat n - Z.to_nat n)%nat with (length d) by lia.
    apply take_app_length.
Qed.

(** C3, as the code has it. [_unpad_data] looks at the last octet only: on a
    non-empty input it always succeeds, dropping as many trailing octets as
    that octet says (everything when it is 0 or exceeds the length); on the
    empty input it raises [IndexError]; it never raises [PaddingError]. *)
Theorem unpad_ignores_padding (x : bytes) :
  _unpad_data x =
    match last x with
    | None => Raise IndexError
    | Some b =>
        Ok (if (Byte.to_N b =? 0)%N then []
            else take (length x - N.to_nat (Byte.to_N b)) x)
    end
  /\ _unpad_data x <> Raise PaddingError.
Proof.
  assert (H : _unpad_data x =
    match last x with
    | None => Raise IndexError
    | Some b =>
        Ok (if (Byte.to_N b =? 0)%N then []
            else take (length x - N.to_nat (Byte.to_N b)) x)
    end).
  { unfold _unpad_data, getitem_last. destruct (last x) as [b|]; [|reflexivity].
    f_equal. destruct (N.eqb_spec (Byte.to_N b) 0) as [E|E].
    - rewrite E. reflexivity.
    - rewrite slice_to_neg by lia. f_equal. lia. }
  split; [exact H|]. rewrite H. destruct (last x); discriminate.
Qed.

(** C3 as stated fails: on sixteen octets that end in 07 02 the padding is
    inconsistent, and [_unpad_data] succeeds, returning the first fourteen. *)
Lemma unpad_accepts_bad_padding :
  pkcs7_consistent bad_padding = false /\
  _unpad_data bad_padding = Ok (replicate 14 x41).
Proof. split; reflexivity. Qed.

(** [aes_decrypt] adds no check of its own: whatever the cipher returns goes
    through [_unpad_data] and the UTF-8 decoder. *)
Lemma aes_decrypt_eq {L : Libs} (ciphertext key iv : bytes) (w : World) :
  aes_decrypt ciphertext key iv w =
    (match aes_cbc_decrypt key iv ciphertext with
     | None => Raise (ValueError "Invalid key size")
     | Some padded =>
         match _unpad_data padded with
         | Ok plaintext =>
             match bytes_decode plaintext with
             | Some s => Ok s
             | None => Raise UnicodeError
             end
         | Raise e => Raise e
         end
     end, w).
Proof.
  unfold aes_decrypt. unfold_monad.
  destruct (aes_cbc_decrypt key iv ciphertext) as [padded|]; [|reflexivity].
  destruct (_unpad_data padded) as [plaintext|e]; [|reflexivity].
  destruct (bytes_decode plaintext); reflexivity.
Qed.

(** ** Reading tickets *)

Section Reading.
Context {L : Libs}.

(** The opening statements shared by the three readers, followed by [k]. *)
Lemma read_then {A} self ticket (k : value -> M A) (h : exn -> M A) w :
  try_except
    (raw <- encode_utf8 ticket ;;
     encrypted_data <- or_raise BinasciiError (b64decode raw) ;;
     decrypted_data <- decrypt_data (crypto_utils self) encrypted_data ;;
     ticket_data <- or_raise JSONDecodeError (json_loads decrypted_data) ;;
     k ticket_data) h w =
  match open_ticket self ticket with
  | Some v => try_except (k v) h w
  | None => h (open_error self ticket) w
  end.
Proof.
  unfold open_ticket, open_error, decrypt_data. unfold_monad.
  destruct (str_encode ticket) as [raw|]; [|reflexivity].
  destruct (b64decode raw) as [enc|]; [|reflexivity].
  destruct (fernet_decrypt _ enc) as [dec|]; [|reflexivity].
  destruct (bytes_decode dec) as [txt|]; [|reflexivity].
  destruct (json_loads txt) as [v|]; reflexivity.
Qed.

Lemma validate_service_ticket_eq self ticket w :
  validate_service_ticket self ticket w =
    match open_ticket self ticket ≫= expiry_of with
    | Some T => (Ok (negb (reading w 0 >? T)), advance w 1 0)
    | None => (Ok false, w)
    end.
Proof.
  unfold validate_service_ticket. rewrite read_then.
  destruct (open_ticket self ticket) as [v|]; [|reflexivity].
  unfold expiry_of, getitem. cbn [mbind option_bind].
  unfold_monad.
  destruct v as [ | | | | | |d]; try reflexivity.
  destruct (dict_lookup _ d) as [[ | | | |e| | ]|]; try reflexivity.
  destruct (fromisoformat e) as [T|]; [|reflexivity].
  unfold datetime_now, reading, advance. cbn [Nat.add].
  destruct (_ >? T); reflexivity.
Qed.

Lemma _validate_tgt_eq self tgt w :
  _validate_tgt self tgt w =
    match open_ticket self tgt with
    | Some v =>
        match expiry_of v with
        | Some T => (Ok (if reading w 0 >? T then VNone else v), advance w 1 0)
        | None => (Ok VNone, w)
        end
    | None => (Ok VNone, w)
    end.
Proof.
  unfold _validate_tgt. rewrite read_then.
  destruct (open_ticket self tgt) as [v|]; [|reflexivity].
  unfold expiry_of, getitem.
  unfold_monad.
  destruct v as [ | | | | | |d]; try reflexivity.
  destruct (dict_lookup _ d) as [[ | | | |e| | ]|]; try reflexivity.
  destruct (fromisoformat e) as [T|]; [|reflexivity].
  unfold datetime_now, reading, advance. cbn [Nat.add].
  destruct (_ >? T); reflexivity.
Qed.

Lemma get_ticket_info_eq self ticket w :
  get_ticket_info self ticket w =
    (Ok (match open_ticket self ticket with
         | Some (VDict d) => ticket_view d
         | _ => VNone
         end), w).
Proof.
  unfold get_ticket_info. rewrite read_then.
  destruct (open_ticket self ticket) as [v|]; [|reflexivity].
  destruct v; reflexivity.
Qed.

(** C1, as the code has it. [validate_service_ticket] lets no exception
    escape, and it answers [True] exactly when the ticket opens (text to
    octets, base64, Fernet, UTF-8 and JSON all succeed), carries a readable
    [expires_at], and the clock has not passed it: [now <= expires_at].  In
    every other case, and only then, the answer is [False]. *)
Theorem validate_service_ticket_spec self ticket w :
  (exists b, fst (validate_service_ticket self ticket w) = Ok b) /\
  (fst (validate_service_ticket self ticket w) = Ok true <->
   exists v T,
     open_ticket self ticket = Some v /\ expiry_of v = Some T /\ reading w 0 <= T).
Proof.
  rewrite validate_service_ticket_eq.
  destruct (open_ticket self ticket) as [v|]; cbn [mbind option_bind].
  - destruct (expiry_of v) as [T|] eqn:HT; cbn [fst].
    + split; [eauto|]. rewrite Z.gtb_ltb.
      destruct (Z.ltb_spec T (reading w 0)) as [Hlt|Hge]; cbn [negb].
      * split; [discriminate|]. intros (v' & T' & Hv & HT' & Hle).
        injection Hv as <-. rewrite HT in HT'. injection HT' as <-. lia.
      * split; [|reflexivity]. intros _. exists v, T. auto.
    + split; [eauto|]. split; [discriminate|].
      intros (v' & T' & Hv & HT' & _).
      injection Hv as <-. rewrite HT in HT'. discriminate.
  - split; [eauto|]. split; [discriminate|].
    intros (v' & T' & Ho & _). discriminate.
Qed.

(** C7. [get_ticket_info] opens the ticket and never reads the clock: the
    world is left as it was, and the answer is the five-field view of the
    opened envelope whatever its [expires_at] says, also when that instant lies
    in the past and [validate_service_ticket] refuses the ticket.  The answer is
    [None] exactly when the ticket does not open to an envelope. *)
Theorem get_ticket_info_spec self ticket w :
  get_ticket_info self ticket w =
    (Ok (match open_ticket self ticket with
         | Some (VDict d) => ticket_view d
         | _ => VNone
         end), w) /\
  (fst (get_ticket_info self ticket w) = Ok VNone <->
   forall d, open_ticket self ticket <> Some (VDict d)) /\
  (forall d T,
     open_ticket self ticket = Some (VDict d) ->
     expiry_of (VDict d) = Some T -> T < reading w 0 ->
     fst (get_ticket_info self ticket w) = Ok (ticket_view d) /\
     fst (validate_service_ticket self ticket w) = Ok false).
Proof.
  split; [apply get_ticket_info_eq|]. split.
  - rewrite get_ticket_info_eq. cbn [fst].
    destruct (open_ticket self ticket) as [[ | | | | | |d]|];
      try (split; [intros _ d'; discriminate | reflexivity]).
    split; [discriminate|]. intros H. destruct (H d). reflexivity.
  - intros d T Ho HT Hlt.
    rewrite get_ticket_info_eq, validate_service_ticket_eq, Ho.
    cbn [mbind option_bind]. rewrite HT. cbn [fst]. split; [reflexivity|].
    rewrite Z.gtb_ltb.
    replace (T <? reading w 0) with true by (symmetry; apply Z.ltb_lt; lia).
    reflexivity.
Qed.

End Reading.

(** ** What JSON gives back *)

Lemma str_pairs_ind (P : str -> Prop) :
  P [] -> (forall c, P [c]) ->
  (forall c d t, P t -> P (d :: t) -> P (c :: d :: t)) ->
  forall s, P s.
Proof.
  intros H0 H1 H2 s.
  enough (P s /\ forall c, P (c :: s)) by tauto.
  induction s as [|d t [IHt IHc]]; [split; [exact H0 | exact H1]|].
  split; [apply IHc|]. intros c. apply H2; [exact IHt | apply IHc].
Qed.

Lemma json_str_cons2 c d t :
  json_str (c :: d :: t) =
    if is_high_surrogate c && is_low_surrogate d
    then join_surrogates c d :: json_str t
    else c :: json_str (d :: t).
Proof. reflexivity. Qed.

(** Text without a high surrogate, ASCII text above all, is read back as it is. *)
Lemma json_str_no_high s :
  Forall (fun c => is_high_surrogate c = false) s -> json_str s = s.
Proof.
  induction s as [|c t IH]; [reflexivity|]. intros H.
  apply Forall_cons in H as [Hc Ht].
  destruct t as [|d t']; [reflexivity|].
  rewrite json_str_cons2, Hc. cbn [andb]. rewrite IH by exact Ht. reflexivity.
Qed.

Lemma json_str_ascii s : is_ascii s -> json_str s = s.
Proof.
  intros H. apply json_str_no_high. eapply Forall_impl; [exact H|].
  intros c Hc. cbv beta in Hc. unfold is_high_surrogate.
  apply andb_false_intro1, N.leb_gt. lia.
Qed.

Lemma join_surrogates_plain h l :
  is_high_surrogate (join_surrogates h l) = false /\
  is_low_surrogate (join_surrogates h l) = false.
Proof.
  unfold is_high_surrogate, is_low_surrogate, join_surrogates.
  split; apply andb_false_intro2, N.leb_gt; lia.
Qed.

(** What is read back starts with the first code point or with a joined pair. *)
Lemma json_str_head d t :
  exists e r, json_str (d :: t) = e :: r /\ (e = d \/ is_low_surrogate e = false).
Proof.
  destruct t as [|d' t]; [exists d, []; auto|].
  rewrite json_str_cons2. destruct (is_high_surrogate d && is_low_surrogate d').
  - eexists _, _. split; [reflexivity|]. right. apply join_surrogates_plain.
  - eexists _, _. split; [reflexivity|]. left. reflexivity.
Qed.

(** Reading back leaves no pair to join: a second pass changes nothing. *)
Lemma json_str_idem s : json_str (json_str s) = json_str s.
Proof.
  induction s as [|c|c d t IHt IHdt] using str_pairs_ind; [reflexivity..|].
  rewrite json_str_cons2.
  destruct (is_high_surrogate c && is_low_surrogate d) eqn:E.
  - destruct (json_str t) as [|e r] eqn:Et; [reflexivity|].
    rewrite json_str_cons2.
    rewrite (proj1 (join_surrogates_plain c d)). cbn [andb].
    rewrite IHt. reflexivity.
  - destruct (json_str_head d t) as (e & r & Eh & He).
    rewrite Eh in *. rewrite json_str_cons2.
    replace (is_high_surrogate c && is_low_surrogate e) with false.
    + rewrite IHdt. reflexivity.
    + destruct He as [-> | He]; [symmetry; exact E|].
      rewrite He. symmetry. apply andb_false_r.
Qed.

(** A dictionary that reading back leaves alone holds values it leaves alone. *)
Lemma read_back_stable_lookup d k v :
  json_read_back (VDict d) = VDict d ->
  dict_lookup k d = Some v -> json_read_back v = v.
Proof.
  cbn [json_read_back]. intros [= H]. induction d as [|[k' x] d IH]; [discriminate|].
  cbn [List.map fst snd] in H. injection H as Hx Hd.
  cbn [dict_lookup]. destruct (bool_decide (k = k')).
  - intros [= <-]. exact Hx.
  - apply IH, Hd.
Qed.

(** ** Issuing tickets *)

Section Issuing.
Context {L : Libs} {HL : LibsLaws L}.

Lemma encode_dumps v : str_encode (json_dumps v) = Some (ascii_bytes (json_dumps v)).
Proof. apply utf8_ascii, json_dumps_ascii. Qed.

(** Base64 output is text: it decodes, and encodes back to itself. *)
Lemma b64_text b :
  exists s, bytes_decode (b64encode b) = Some s /\ str_encode s = Some (b64encode b).
Proof.
  destruct (b64encode_ascii b) as (s & Hs & ->).
  exists s. pose proof (utf8_ascii s Hs) as He. split; [|exact He].
  apply utf8_decode_encode. exact He.
Qed.

Lemma length_entropy_slice w off n : length (entropy_slice w off n) = n.
Proof. unfold entropy_slice. rewrite length_map. apply length_seq. Qed.

Lemma encrypt_data_eq self data plain w :
  str_encode data = Some plain ->
  encrypt_data self data w =
    (Ok (fernet_encrypt_from_parts (_fernet_key self) (unix_reading w 0)
           (entropy_slice w 0 16) plain),
     advance w 1 16).
Proof.
  intros He. unfold encrypt_data, Fernet_encrypt. unfold_monad. rewrite He.
  reflexivity.
Qed.

Lemma decrypt_data_eq self t iv data plain w :
  str_encode data = Some plain -> length iv = 16%nat ->
  decrypt_data self (fernet_encrypt_from_parts (_fernet_key self) t iv plain) w =
    (Ok data, w).
Proof.
  intros He Hiv. unfold decrypt_data. unfold_monad.
  rewrite fernet_decrypt_encrypt by exact Hiv.
  rewrite (utf8_decode_encode _ _ He). reflexivity.
Qed.

(** A sealed, well-formed envelope opens to what JSON reads back of it. *)
Lemma open_sealed self ticket envelope t iv :
  seals self ticket envelope t iv -> length iv = 16%nat ->
  value_wf envelope = true ->
  open_ticket self ticket = Some (json_read_back envelope).
Proof.
  intros (plain & Hp & Ht) Hiv Hwf. unfold open_ticket.
  rewrite Ht, b64decode_encode, fernet_decrypt_encrypt by exact Hiv.
  rewrite (utf8_decode_encode _ _ Hp). apply json_loads_dumps, Hwf.
Qed.

Lemma generate_tgt_eq self user_id username w :
  exists ticket,
    generate_tgt self user_id username w = (Ok ticket, advance w 3 48) /\
    seals self ticket (VDict (tgt_envelope self user_id username w))
      (unix_reading w 2) (entropy_slice w 32 16).
Proof.
  set (env := VDict (tgt_envelope self user_id username w)).
  set (sealed := fernet_encrypt_from_parts (_fernet_key (crypto_utils self))
                   (unix_reading w 2) (entropy_slice w 32 16)
                   (ascii_bytes (json_dumps env))).
  destruct (b64_text sealed) as (ticket & Hd & He).
  exists ticket. split.
  - unfold generate_tgt, generate_session_key, encrypt_data, Fernet_encrypt,
      datetime_now, time_time, os_urandom.
    unfold_monad. cbn [clock unix_clock ticks entropy drawn].
    fold default_permissions.
    change (VDict _) with env at 1.
    rewrite (encode_dumps env).
    change (fernet_encrypt_from_parts _ _ _ _) with sealed.
    rewrite Hd. reflexivity.
  - exists (ascii_bytes (json_dumps env)). split; [apply encode_dumps | exact He].
Qed.

Lemma tgt_envelope_wf self user_id username w :
  value_wf (VDict (tgt_envelope self user_id username w)) = true.
Proof. reflexivity. Qed.

Lemma tgt_envelope_expiry self user_id username w :
  expiry_of (VDict (tgt_envelope self user_id username w)) =
    Some (reading w 1 + tgt_lifetime self).
Proof.
  unfold expiry_of, tgt_envelope.
  change (dict_lookup _ _) with
    (Some (VStr (isoformat (reading w 1 + tgt_lifetime self)))).
  apply fromisoformat_isoformat.
Qed.

(** Read back, the envelope of a ticket-granting ticket is the envelope for
    the two names as JSON reads them back. *)
Lemma tgt_envelope_read_back self user_id username w :
  json_read_back (VDict (tgt_envelope self user_id username w)) =
    VDict (tgt_envelope self (json_str user_id) (json_str username) w).
Proof.
  unfold tgt_envelope. cbn [json_read_back List.map fst snd].
  rewrite !(json_str_ascii (isoformat _)) by apply isoformat_ascii.
  rewrite (json_str_ascii (token_urlsafe_text _)) by apply token_urlsafe_ascii.
  reflexivity.
Qed.

(** A sealed value that is not a JSON object opens, every decoding step
    succeeding, and [get_ticket_info] still answers [None]. *)
Lemma non_object_ticket self ticket v t iv w :
  seals self ticket v t iv -> length iv = 16%nat -> value_wf v = true ->
  (forall d, v <> VDict d) ->
  open_ticket self ticket = Some (json_read_back v) /\
  get_ticket_info self ticket w = (Ok VNone, w).
Proof.
  intros Hs Hiv Hwf Hno.
  pose proof (open_sealed _ _ _ _ _ Hs Hiv Hwf) as Ho. split; [exact Ho|].
  rewrite get_ticket_info_eq, Ho.
  destruct v as [ | | | | | |d]; try reflexivity. destruct (Hno d). reflexivity.
Qed.

(** C2. For every principal [u], whatever its roles, [generate_tgt] returns
    the base64 text of the sealed envelope that has no [service_name], the
    permission list [read, write, execute], a session key made from 32 random
    octets drawn during this call, [issued_at] the clock reading taken for it
    and [expires_at] the next reading plus the TGT lifetime. *)
Theorem generate_tgt_envelope self (u : User.t) w :
  exists ticket envelope,
    generate_tgt self (User.id u) (User.username u) w = (Ok ticket, advance w 3 48) /\
    seals self ticket (VDict envelope) (unix_reading w 2) (entropy_slice w 32 16) /\
    dict_lookup (lit "service_name") envelope = None /\
    dict_lookup (lit "permissions") envelope = Some default_permissions /\
    dict_lookup (lit "session_key") envelope =
      Some (VStr (token_urlsafe_text (entropy_slice w 0 32))) /\
    dict_lookup (lit "issued_at") envelope = Some (VStr (isoformat (reading w 0))) /\
    dict_lookup (lit "expires_at") envelope =
      Some (VStr (isoformat (reading w 1 + tgt_lifetime self))) /\
    dict_lookup (lit "user_id") envelope = Some (VStr (User.id u)) /\
    dict_lookup (lit "username") envelope = Some (VStr (User.username u)).
Proof.
  destruct (generate_tgt_eq self (User.id u) (User.username u) w) as (ticket & Hg & Hs).
  exists ticket, (tgt_envelope self (User.id u) (User.username u) w).
  repeat split; try assumption; reflexivity.
Qed.

(** A ticket [generate_tgt] has issued opens to the envelope it was built
    from, as JSON reads it back, and is valid up to and including its expiry
    instant. *)
Lemma validate_generated self user_id username w ticket w' w2 :
  generate_tgt self user_id username w = (Ok ticket, w') ->
  open_ticket self ticket =
    Some (VDict (tgt_envelope self (json_str user_id) (json_str username) w)) /\
  validate_service_ticket self ticket w2 =
    (Ok (negb (reading w2 0 >? reading w 1 + tgt_lifetime self)), advance w2 1 0).
Proof.
  intros Hg.
  destruct (generate_tgt_eq self user_id username w) as (ticket' & Hg' & Hs).
  rewrite Hg in Hg'. injection Hg' as <- _.
  pose proof (open_sealed _ _ _ _ _ Hs (length_entropy_slice _ _ _)
                (tgt_envelope_wf self user_id username w)) as Ho.
  rewrite tgt_envelope_read_back in Ho.
  split; [exact Ho|].
  rewrite validate_service_ticket_eq, Ho. cbn [mbind option_bind].
  rewrite tgt_envelope_expiry. reflexivity.
Qed.

(** C8. A ticket-granting ticket handed to [validate_service_ticket] is
    decrypted and checked for expiry like any other ticket.  The ticket
    [generate_tgt] returns opens to an envelope without [service_name], and
    the answer on it is [True] at every clock reading up to its expiry and
    [False] at every later one; each answer costs one clock reading.  For
    tickets in general, one that does not open is refused, and two that open
    to envelopes with the same [expires_at] get the same answer, whatever
    else they hold: [service_name] plays no part. *)
Theorem validate_accepts_fresh_tgt self user_id username w ticket w' :
  generate_tgt self user_id username w = (Ok ticket, w') ->
  (exists d,
     open_ticket self ticket = Some (VDict d) /\
     dict_lookup (lit "service_name") d = None /\
     expiry_of (VDict d) = Some (reading w 1 + tgt_lifetime self)) /\
  (forall w2,
     (reading w2 0 <= reading w 1 + tgt_lifetime self ->
      validate_service_ticket self ticket w2 = (Ok true, advance w2 1 0)) /\
     (reading w 1 + tgt_lifetime self < reading w2 0 ->
      validate_service_ticket self ticket w2 = (Ok false, advance w2 1 0))) /\
  (forall other w2,
     open_ticket self other = None ->
     validate_service_ticket self other w2 = (Ok false, w2)) /\
  (forall t1 t2 d1 d2 w2,
     open_ticket self t1 = Some (VDict d1) ->
     open_ticket self t2 = Some (VDict d2) ->
     dict_lookup (lit "expires_at") d1 = dict_lookup (lit "expires_at") d2 ->
     validate_service_ticket self t1 w2 = validate_service_ticket self t2 w2).
Proof.
  intros Hg. split; [|split; [|split]].
  - destruct (validate_generated self user_id username w ticket w' w Hg) as (Ho & _).
    eexists. split; [exact Ho|]. split; [reflexivity|]. apply tgt_envelope_expiry.
  - intros w2.
    destruct (validate_generated self user_id username w ticket w' w2 Hg) as (_ & ->).
    rewrite Z.gtb_ltb. split; intros Hnow.
    + replace (_ <? _) with false by (symmetry; apply Z.ltb_ge; lia). reflexivity.
    + replace (_ <? _) with true by (symmetry; apply Z.ltb_lt; lia). reflexivity.
  - intros other w2 Ho. rewrite validate_service_ticket_eq, Ho. reflexivity.
  - intros t1 t2 d1 d2 w2 H1 H2 He.
    rewrite !validate_service_ticket_eq, H1, H2. cbn [mbind option_bind].
    unfold expiry_of. rewrite He. reflexivity.
Qed.

(** A ticket-granting ticket presented at the very instant it expires is
    still accepted, and a microsecond later it is refused. *)
Lemma validate_at_expiry self user_id username w ticket w' w2 :
  generate_tgt self user_id username w = (Ok ticket, w') ->
  (reading w2 0 = reading w 1 + tgt_lifetime self ->
   fst (validate_service_ticket self ticket w2) = Ok true) /\
  (reading w2 0 = reading w 1 + tgt_lifetime self + 1 ->
   fst (validate_service_ticket self ticket w2) = Ok false).
Proof.
  intros Hg.
  destruct (validate_generated self user_id username w ticket w' w2 Hg) as (_ & ->).
  cbn [fst]. rewrite Z.gtb_ltb. split; intros ->.
  - rewrite Z.ltb_irrefl. reflexivity.
  - replace (_ <? _) with true by (symmetry; apply Z.ltb_lt; lia). reflexivity.
Qed.

Lemma generate_service_ticket_eq self tgt service_name w d T :
  open_ticket self tgt = Some (VDict d) ->
  expiry_of (VDict d) = Some T ->
  reading w 0 <= T ->
  is_Some (dict_lookup (lit "user_id") d) ->
  is_Some (dict_lookup (lit "username") d) ->
  exists ticket,
    generate_service_ticket self tgt service_name w = (Ok ticket, advance w 4 48) /\
    seals self ticket (VDict (service_envelope self d service_name w))
      (unix_reading w 3) (entropy_slice w 32 16).
Proof.
  intros Ho HT Hnow [uid Hu] [un Hn].
  set (env := VDict (service_envelope self d service_name w)).
  set (sealed := fernet_encrypt_from_parts (_fernet_key (crypto_utils self))
                   (unix_reading w 3) (entropy_slice w 32 16)
                   (ascii_bytes (json_dumps env))).
  destruct (b64_text sealed) as (ticket & Hd & He).
  exists ticket. split.
  - unfold generate_service_ticket.
    unfold try_except at 1, bind at 1.
    rewrite _validate_tgt_eq, Ho, HT.
    replace (reading w 0 >? T) with false
      by (symmetry; rewrite Z.gtb_ltb; apply Z.ltb_ge; lia).
    assert (truthy (VDict d) = true) as ->.
    { destruct d; [discriminate Hu | reflexivity]. }
    unfold generate_session_key, encrypt_data, Fernet_encrypt,
      datetime_now, time_time, os_urandom, getitem, dict_get.
    unfold_monad. cbn [negb clock unix_clock ticks entropy drawn advance].
    rewrite Hu, Hn.
    assert (Henv : VDict
      [ (lit "user_id", uid); (lit "username", un);
        (lit "service_name", VStr service_name);
        (lit "issued_at", VStr (isoformat (clock w (S (ticks w)))));
        (lit "expires_at",
          VStr (isoformat (clock w (S (S (ticks w))) + service_ticket_lifetime self)));
        (lit "session_key",
          VStr (token_urlsafe_text (List.map (entropy w) (seq (drawn w) 32))));
        (lit "permissions",
          match dict_lookup (lit "permissions") d with
          | Some v => v
          | None => VList []
          end) ] = env).
    { unfold env, service_envelope, or_default. rewrite Hu, Hn. reflexivity. }
    cbn [Nat.add]. rewrite Henv, (encode_dumps env).
    change (fernet_encrypt_from_parts _ _ _ _) with sealed.
    rewrite Hd. reflexivity.
  - exists (ascii_bytes (json_dumps env)). split; [apply encode_dumps | exact He].
Qed.

(** Without a valid ticket-granting ticket the request is refused. *)
Lemma generate_service_ticket_invalid self tgt service_name w :
  fst (_validate_tgt self tgt w) = Ok VNone ->
  fst (generate_service_ticket self tgt service_name w) =
    Raise (ValueError "Invalid TGT").
Proof.
  unfold generate_service_ticket. unfold try_except at 1, bind at 1.
  destruct (_validate_tgt self tgt w) as [r w']. cbn [fst]. intros ->.
  reflexivity.
Qed.

(** C4. From a ticket-granting ticket that opens to an envelope [d] with
    [user_id] and [username] and has not expired, [generate_service_ticket]
    returns the base64 text of a sealed envelope that has [d]'s permissions
    unchanged (the empty list if [d] has none), [d]'s [user_id] and
    [username], the requested [service_name], a session key made from 32
    octets drawn during this call, [issued_at] the clock reading taken for it
    and [expires_at] the next reading plus the service-ticket lifetime. *)
Theorem service_ticket_inherits self tgt service_name w d T uid un :
  open_ticket self tgt = Some (VDict d) ->
  expiry_of (VDict d) = Some T ->
  reading w 0 <= T ->
  dict_lookup (lit "user_id") d = Some uid ->
  dict_lookup (lit "username") d = Some un ->
  exists ticket envelope,
    generate_service_ticket self tgt service_name w = (Ok ticket, advance w 4 48) /\
    seals self ticket (VDict envelope) (unix_reading w 3) (entropy_slice w 32 16) /\
    dict_lookup (lit "permissions") envelope =
      Some (or_default (dict_lookup (lit "permissions") d) (VList [])) /\
    dict_lookup (lit "user_id") envelope = Some uid /\
    dict_lookup (lit "username") envelope = Some un /\
    dict_lookup (lit "service_name") envelope = Some (VStr service_name) /\
    dict_lookup (lit "session_key") envelope =
      Some (VStr (token_urlsafe_text (entropy_slice w 0 32))) /\
    dict_lookup (lit "issued_at") envelope = Some (VStr (isoformat (reading w 1))) /\
    dict_lookup (lit "expires_at") envelope =
      Some (VStr (isoformat (reading w 2 + service_ticket_lifetime self))).
Proof.
  intros Ho HT Hnow Hu Hn.
  destruct (generate_service_ticket_eq self tgt service_name w d T Ho HT Hnow)
    as (ticket & Hg & Hs); [eauto | eauto |].
  exists ticket, (service_envelope self d service_name w).
  split; [exact Hg|]. split; [exact Hs|].
  unfold service_envelope. rewrite Hu, Hn.
  repeat split; reflexivity.
Qed.

(** C6. Under one key, [decrypt_data] undoes [encrypt_data] on every text
    that has a UTF-8 encoding; [json.dumps] prints ASCII, so every serialized
    envelope is such a text ([serialized_envelope_encodable]). *)
Theorem decrypt_encrypt_roundtrip self s w :
  is_Some (str_encode s) ->
  exists sealed,
    encrypt_data self s w = (Ok sealed, advance w 1 16) /\
    forall w2, decrypt_data self sealed w2 = (Ok s, w2).
Proof.
  intros [plain He].
  exists (fernet_encrypt_from_parts (_fernet_key self) (unix_reading w 0)
            (entropy_slice w 0 16) plain).
  split.
  - unfold encrypt_data, Fernet_encrypt. unfold_monad. rewrite He. reflexivity.
  - intros w2. unfold decrypt_data. unfold_monad.
    rewrite fernet_decrypt_encrypt by apply length_entropy_slice.
    rewrite (utf8_decode_encode _ _ He). reflexivity.
Qed.

Lemma serialized_envelope_encodable envelope : is_Some (str_encode (json_dumps envelope)).
Proof. rewrite encode_dumps. eauto. Qed.

Lemma serialized_envelope_roundtrip self envelope w :
  exists sealed,
    encrypt_data self (json_dumps envelope) w = (Ok sealed, advance w 1 16) /\
    forall w2, decrypt_data self sealed w2 = (Ok (json_dumps envelope), w2).
Proof.
  eexists. split.
  - apply encrypt_data_eq, encode_dumps.
  - intros w2. apply decrypt_data_eq; [apply encode_dumps | apply length_entropy_slice].
Qed.


End Issuing.

(** ** Logging in *)

Section Login.
Context {L : Libs}.

Lemma _verify_password_eq self password password_hash w :
  _verify_password self password password_hash w =
    (Ok (match str_encode password with
         | Some pwb => match bcrypt_checkpw pwb password_hash with
                       | Some b => b
                       | None => false
                       end
         | None => false
         end), w).
Proof.
  unfold _verify_password. unfold_monad.
  destruct (str_encode password) as [pwb|]; [|reflexivity].
  destruct (bcrypt_checkpw pwb password_hash); reflexivity.
Qed.

Lemma authenticate_user_via_eq lookup self username password w :
  fst (authenticate_user_via lookup self username password w) =
    match fst (lookup username w) with
    | Ok (Some u) =>
        match fst (_verify_password self password (User.password_hash u)
                     (snd (lookup username w))) with
        | Ok true => Ok (Some u)
        | _ => Ok None
        end
    | _ => Ok None
    end.
Proof.
  unfold authenticate_user_via. unfold try_except at 1, bind at 1.
  destruct (lookup username w) as [[[u|]|e] w']; cbn [fst snd]; try reflexivity.
  unfold bind. rewrite _verify_password_eq. cbn [fst].
  destruct (match str_encode password with Some _ => _ | None => _ end); reflexivity.
Qed.

(** C5. [authenticate_user] never raises, and in each of the three failure
    cases (the lookup raises, the user is unknown, the password does not
    verify) it returns the one value [None]; it returns [None] in no other
    case.  This holds whatever credential store is looked up, and so for the
    store the source ships with. *)
Theorem authenticate_user_uniform_failure lookup self username password w :
  ((exists r, fst (authenticate_user_via lookup self username password w) = Ok r) /\
   (authentication_fails lookup self username password w <->
    fst (authenticate_user_via lookup self username password w) = Ok None)) /\
  ((exists r, fst (authenticate_user self username password w) = Ok r) /\
   (authentication_fails (_get_user_by_username self) self username password w <->
    fst (authenticate_user self username password w) = Ok None)).
Proof.
  assert (Hany : forall store,
    (exists r, fst (authenticate_user_via store self username password w) = Ok r) /\
    (authentication_fails store self username password w <->
     fst (authenticate_user_via store self username password w) = Ok None)).
  { intros store. rewrite authenticate_user_via_eq. unfold authentication_fails.
    destruct (fst (store username w)) as [[u|]|e].
    - rewrite _verify_password_eq. cbn [fst].
      destruct (match str_encode password with Some _ => _ | None => _ end) eqn:E.
      + split; [eauto|]. split; [|discriminate].
        intros [(e & He) | [He | (u' & Hu' & He)]]; try discriminate.
        injection Hu' as <-. rewrite _verify_password_eq in He. cbn [fst] in He.
        rewrite E in He. discriminate.
      + split; [eauto|]. split; [reflexivity|]. intros _. right; right.
        exists u. split; [reflexivity|].
        rewrite _verify_password_eq. cbn [fst]. rewrite E. reflexivity.
    - split; [eauto|]. split; [reflexivity|]. intros _. right; left. reflexivity.
    - split; [eauto|]. split; [reflexivity|]. intros _. left. eauto. }
  split; [apply Hany | apply (Hany (_get_user_by_username self))].
Qed.

(** ** Password hashing *)

Lemma hash_password_salted password salt pw w :
  str_encode password = Some pw ->
  hash_password password (Some salt) w =
    (Ok (pbkdf2_hmac SHA256 32 salt 100000 pw, salt), w).
Proof. intros He. unfold hash_password. unfold_monad. rewrite He. reflexivity. Qed.


Lemma verify_password_eq password password_hash salt w :
  verify_password password password_hash salt w =
    (Ok (match str_encode password with
         | Some pw => bool_decide (pbkdf2_hmac SHA256 32 salt 100000 pw = password_hash)
         | None => false
         end), w).
Proof.
  unfold verify_password. unfold_monad.
  destruct (str_encode password) as [pw|]; [|reflexivity].
  destruct (bool_decide _); reflexivity.
Qed.

Lemma KerberosAuth__init__lifetimes environ w self w' :
  KerberosAuth__init__ environ w = (Ok self, w') ->
  tgt_lifetime self = timedelta_hours 8 /\
  service_ticket_lifetime self = timedelta_hours 2.
Proof.
  unfold KerberosAuth__init__, bind, ret.
  destruct (CryptoUtils__init__ environ w) as [[cu|e] w1]; [|discriminate].
  intros [= <- _]. split; reflexivity.
Qed.

End Login.

Section Hashing.
Context {L : Libs} {HL : LibsLaws L}.




(** A 32-octet key for more than [256 ^ 32] passwords: two must share one. *)
Lemma pbkdf2_collision (salt : bytes) :
  exists p p' : str,
    p <> p' /\ is_ascii p /\ is_ascii p' /\
    pbkdf2_hmac SHA256 32 salt 100000 (ascii_bytes p) =
    pbkdf2_hmac SHA256 32 salt 100000 (ascii_bytes p').
Proof.
  pose (f := fun v : vec bool 257 =>
    exist (fun l : list byte => length l = 32%nat)
      (pbkdf2_hmac SHA256 32 salt 100000 (ascii_bytes (bit_password v)))
      (pbkdf2_length salt (ascii_bytes (bit_password v)))).
  destruct (finite_pigeonhole f card_keys_lt_passwords) as (v1 & v2 & Hne & Hf).
  exists (bit_password v1), (bit_password v2). split; [|split; [|split]].
  - intros H. apply Hne, bit_password_inj, H.
  - apply bit_password_ascii.
  - apply bit_password_ascii.
  - apply (f_equal proj1_sig) in Hf. exact Hf.
Qed.

(** Some password other than the one that was hashed verifies too. *)
Lemma verify_password_collision (salt : bytes) (w : World) :
  exists p p' h,
    p <> p' /\
    hash_password p (Some salt) w = (Ok (h, salt), w) /\
    fst (verify_password p' h salt w) = Ok true.
Proof.
  destruct (pbkdf2_collision salt) as (p & p' & Hne & Hp & Hp' & Heq).
  exists p, p', (pbkdf2_hmac SHA256 32 salt 100000 (ascii_bytes p)).
  split; [exact Hne|]. split.
  - apply hash_password_salted, utf8_ascii, Hp.
  - rewrite verify_password_eq, (utf8_ascii p' Hp'). cbn [fst].
    rewrite bool_decide_eq_true_2 by (symmetry; exact Heq). reflexivity.
Qed.

End Hashing.

(** No library can make [verify_password] reject all passwords other than
    the one that was hashed: a key of 32 octets cannot tell them all apart. *)
Lemma no_library_rejects_all_others :
  ~ exists L : Libs,
      LibsLaws L /\
      forall p p' salt h w w',
        p <> p' ->
        hash_password p (Some salt) w = (Ok (h, salt), w') ->
        fst (verify_password p' h salt w') = Ok false.
Proof.
  intros (L & HL & Hclaim).
  destruct (verify_password_collision [] Ref.world0) as (p & p' & h & Hne & Hh & Hv).
  specialize (Hclaim p p' [] h Ref.world0 Ref.world0 Hne Hh).
  rewrite Hv in Hclaim. discriminate.
Qed.

(** ** The statements at work on concrete tickets *)

Section Concrete.
#[local] Existing Instance Ref.libs.
#[local] Existing Instance RefLaws.laws.

(** C1 as stated fails at the boundary: the ticket [Ref.tgt0] expires at
    instant 28801000000; at that very instant, when [expires_at <= now]
    holds, [validate_service_ticket] answers [True]. *)
Lemma validate_true_at_expiry_instant :
  open_ticket Ref.auth Ref.tgt0 ≫= expiry_of = Some 28801000000 /\
  reading (Ref.world_at 28801000000) 0 = 28801000000 /\
  fst (validate_service_ticket Ref.auth Ref.tgt0 (Ref.world_at 28801000000)) = Ok true.
Proof. vm_compute. repeat split; reflexivity. Qed.

Lemma tgt0_issued :
  generate_tgt Ref.auth (lit "1") (lit "admin") Ref.world0 =
    (Ok Ref.tgt0, advance Ref.world0 3 48).
Proof. vm_compute. reflexivity. Qed.

Lemma tgt0_opens :
  open_ticket Ref.auth Ref.tgt0 =
    Some (VDict (tgt_envelope Ref.auth (lit "1") (lit "admin") Ref.world0)).
Proof. vm_compute. reflexivity. Qed.

Lemma generate_tgt_envelope_witness :
  exists ticket envelope,
    generate_tgt Ref.auth (User.id Ref.admin) (User.username Ref.admin) Ref.world0 =
      (Ok ticket, advance Ref.world0 3 48) /\
    dict_lookup (lit "service_name") envelope = None /\
    dict_lookup (lit "permissions") envelope = Some default_permissions.
Proof.
  destruct (generate_tgt_envelope (HL := RefLaws.laws) Ref.auth Ref.admin Ref.world0)
    as (ticket & envelope & Hg & _ & Hs & Hp & _).
  exists ticket, envelope. auto.
Defined.

Lemma validate_accepts_fresh_tgt_witness :
  validate_service_ticket Ref.auth Ref.tgt0 (Ref.world_at 3600000000) =
    (Ok true, advance (Ref.world_at 3600000000) 1 0) /\
  validate_service_ticket Ref.auth Ref.tgt0 (Ref.world_at 28801000001) =
    (Ok false, advance (Ref.world_at 28801000001) 1 0).
Proof.
  destruct (validate_accepts_fresh_tgt (HL := RefLaws.laws) Ref.auth (lit "1") (lit "admin")
              Ref.world0 Ref.tgt0 (advance Ref.world0 3 48))
    as (_ & Hv & _); [vm_compute; reflexivity|].
  split.
  - apply (Hv (Ref.world_at 3600000000)). vm_compute. discriminate.
  - apply (Hv (Ref.world_at 28801000001)). vm_compute. reflexivity.
Defined.

(** C2 as stated fails: the permissions are not derived from the principal's
    roles.  The principal the credential store returns for [guest] has the
    one role [guest]; the ticket [generate_tgt] issues to it carries [read],
    [write] and [execute], the very list the ticket of [admin] carries. *)
Lemma tgt_permissions_ignore_roles :
  User.roles RefMore.guest = [lit "guest"] /\
  User.roles Ref.admin = [lit "admin"; lit "user"] /\
  (exists ticket envelope,
     generate_tgt Ref.auth (User.id RefMore.guest) (User.username RefMore.guest)
       Ref.world0 = (Ok ticket, advance Ref.world0 3 48) /\
     open_ticket Ref.auth ticket = Some (VDict envelope) /\
     dict_lookup (lit "permissions") envelope =
       Some (VList [VStr (lit "read"); VStr (lit "write"); VStr (lit "execute")])) /\
  (exists ticket envelope,
     generate_tgt Ref.auth (User.id Ref.admin) (User.username Ref.admin)
       Ref.world0 = (Ok ticket, advance Ref.world0 3 48) /\
     open_ticket Ref.auth ticket = Some (VDict envelope) /\
     dict_lookup (lit "permissions") envelope =
       Some (VList [VStr (lit "read"); VStr (lit "write"); VStr (lit "execute")])).
Proof.
  split; [vm_compute; reflexivity|]. split; [vm_compute; reflexivity|].
  split; eexists _, _; (split; [vm_compute; reflexivity|]);
    (split; [vm_compute; reflexivity|]); vm_compute; reflexivity.
Qed.

(** C7 as stated fails: [None] is not only the answer to a ticket that fails
    to decode or decrypt.  The ticket [Ref.list_ticket] passes every step,
    text to octets, base64, Fernet, UTF-8 and JSON, and opens to the list of 1
    and 2; a list has no [get], and the answer is [None]. *)
Lemma get_ticket_info_none_on_list :
  open_ticket Ref.auth Ref.list_ticket = Some (VList [VInt 1; VInt 2]) /\
  get_ticket_info Ref.auth Ref.list_ticket Ref.world0 = (Ok VNone, Ref.world0).
Proof. split; vm_compute; reflexivity. Qed.


Lemma service_ticket_inherits_witness :
  exists ticket envelope,
    generate_service_ticket Ref.auth Ref.tgt0 (lit "reporting-api")
      (Ref.world_at 3600000000) =
      (Ok ticket, advance (Ref.world_at 3600000000) 4 48) /\
    dict_lookup (lit "permissions") envelope = Some default_permissions /\
    dict_lookup (lit "service_name") envelope = Some (VStr (lit "reporting-api")).
Proof.
  destruct (service_ticket_inherits (HL := RefLaws.laws) Ref.auth Ref.tgt0
              (lit "reporting-api") (Ref.world_at 3600000000)
              (tgt_envelope Ref.auth (lit "1") (lit "admin") Ref.world0)
              28801000000 (VStr (lit "1")) (VStr (lit "admin")))
    as (ticket & envelope & Hg & _ & Hp & _ & _ & Hs & _).
  - vm_compute. reflexivity.
  - vm_compute. reflexivity.
  - vm_compute. discriminate.
  - reflexivity.
  - reflexivity.
  - exists ticket, envelope. auto.
Defined.

Lemma decrypt_encrypt_roundtrip_witness :
  exists sealed,
    encrypt_data (crypto_utils Ref.auth)
      (json_dumps (VDict (tgt_envelope Ref.auth (lit "1") (lit "admin") Ref.world0)))
      Ref.world0 = (Ok sealed, advance Ref.world0 1 16) /\
    forall w2,
      decrypt_data (crypto_utils Ref.auth) sealed w2 =
        (Ok (json_dumps (VDict (tgt_envelope Ref.auth (lit "1") (lit "admin") Ref.world0))),
         w2).
Proof.
  apply (decrypt_encrypt_roundtrip (HL := RefLaws.laws)).
  eexists. vm_compute. reflexivity.
Defined.


(** Scenario D: a string that is not a ticket is refused, without an error. *)
Example validate_garbage :
  validate_service_ticket Ref.auth (lit "not-a-ticket") Ref.world0 = (Ok false, Ref.world0).
Proof. vm_compute. reflexivity. Qed.

(** An expired ticket is refused, and still described. *)
Example expired_ticket_info :
  fst (validate_service_ticket Ref.auth Ref.tgt0 (Ref.world_at 28801000001)) = Ok false /\
  fst (get_ticket_info Ref.auth Ref.tgt0 (Ref.world_at 28801000001)) =
    Ok (ticket_view (tgt_envelope Ref.auth (lit "1") (lit "admin") Ref.world0)).
Proof. vm_compute. split; reflexivity. Qed.

(** Scenario A and the three failures of a login. *)
Example login_cases :
  (exists u, fst (authenticate_user Ref.auth (lit "admin") (lit "admin123") Ref.world0)
             = Ok (Some u) /\ User.id u = lit "1") /\
  fst (authenticate_user Ref.auth (lit "admin") (lit "wrong") Ref.world0) = Ok None /\
  fst (authenticate_user Ref.auth (lit "nobody") (lit "admin123") Ref.world0) = Ok None /\
  fst (authenticate_user_via Ref.broken_store Ref.auth (lit "admin") (lit "admin123")
         Ref.world0) = Ok None.
Proof.
  split; [eexists; split; vm_compute; reflexivity|].
  repeat split; vm_compute; reflexivity.
Qed.

End Concrete.

(** * More of the code, verified *)

(** ** Tickets: validation, refusal, renewal *)

Section MoreTickets.
Context {L : Libs}.

(** X1. [_validate_tgt] never raises.  It returns the opened envelope,
    unchanged, exactly when [validate_service_ticket] answers [True] on the
    same ticket at the same clock reading, and [None] otherwise: the two
    validators apply one and the same test. *)
Theorem validate_tgt_agrees self ticket w :
  (fst (validate_service_ticket self ticket w) = Ok true /\
   exists v, open_ticket self ticket = Some v /\
             fst (_validate_tgt self ticket w) = Ok v /\ v <> VNone) \/
  (fst (validate_service_ticket self ticket w) = Ok false /\
   fst (_validate_tgt self ticket w) = Ok VNone).
Proof.
  rewrite validate_service_ticket_eq, _validate_tgt_eq.
  destruct (open_ticket self ticket) as [v|]; cbn [mbind option_bind];
    [|right; split; reflexivity].
  destruct (expiry_of v) as [T|] eqn:HT; [|right; split; reflexivity].
  cbn [fst]. destruct (reading w 0 >? T); cbn [negb].
  - right. split; reflexivity.
  - left. split; [reflexivity|]. exists v. repeat split.
    intros ->. discriminate HT.
Qed.

Lemma validate_never_raises self ticket w :
  exists b, fst (validate_service_ticket self ticket w) = Ok b.
Proof.
  rewrite validate_service_ticket_eq.
  destruct (open_ticket self ticket) as [v|]; cbn [mbind option_bind]; [|eauto].
  destruct (expiry_of v); eauto.
Qed.

(** X5. Expiry is for good: a ticket accepted at some clock reading is
    accepted at every earlier one, so a ticket once refused as expired is
    refused at every later reading. *)
Theorem validity_is_monotone self ticket w1 w2 :
  reading w1 0 <= reading w2 0 ->
  fst (validate_service_ticket self ticket w2) = Ok true ->
  fst (validate_service_ticket self ticket w1) = Ok true.
Proof.
  intros Hle. rewrite !validate_service_ticket_eq.
  destruct (open_ticket self ticket) as [v|]; cbn [mbind option_bind fst];
    [|intros H; discriminate H].
  destruct (expiry_of v) as [T|]; cbn [fst]; [|intros H; discriminate H].
  rewrite !Z.gtb_ltb.
  destruct (Z.ltb_spec T (reading w2 0)); [discriminate|]. intros _.
  replace (T <? reading w1 0) with false by (symmetry; apply Z.ltb_ge; lia).
  reflexivity.
Qed.

(** What [generate_service_ticket] does, case by case. *)
Lemma generate_service_ticket_cases self tgt service_name w :
  fst (generate_service_ticket self tgt service_name w) =
    match open_ticket self tgt with
    | Some (VDict d) =>
        match expiry_of (VDict d) with
        | Some T =>
            if reading w 0 >? T then Raise (ValueError "Invalid TGT")
            else
              match dict_lookup (lit "user_id") d with
              | None => Raise (KeyError (lit "user_id"))
              | Some _ =>
                  match dict_lookup (lit "username") d with
                  | None => Raise (KeyError (lit "username"))
                  | Some _ =>
                      match str_encode (json_dumps
                              (VDict (service_envelope self d service_name w))) with
                      | None => Raise UnicodeError
                      | Some plain =>
                          match bytes_decode (b64encode
                                  (fernet_encrypt_from_parts
                                     (_fernet_key (crypto_utils self))
                                     (unix_reading w 3) (entropy_slice w 32 16)
                                     plain)) with
                          | Some ticket => Ok ticket
                          | None => Raise UnicodeError
                          end
                      end
                  end
              end
        | None => Raise (ValueError "Invalid TGT")
        end
    | _ => Raise (ValueError "Invalid TGT")
    end.
Proof.
  unfold generate_service_ticket. unfold try_except at 1, bind at 1.
  rewrite _validate_tgt_eq.
  destruct (open_ticket self tgt) as [v|]; [|reflexivity].
  destruct (expiry_of v) as [T|] eqn:HT.
  2:{ destruct v; try reflexivity. rewrite HT. reflexivity. }
  destruct v as [ | | | | | |d]; try discriminate HT.
  rewrite HT.
  destruct (reading w 0 >? T); [reflexivity|].
  assert (truthy (VDict d) = true) as ->.
  { destruct d; [discriminate HT | reflexivity]. }
  unfold generate_session_key, encrypt_data, Fernet_encrypt,
    datetime_now, time_time, os_urandom, getitem, dict_get.
  unfold_monad. cbn [negb clock unix_clock ticks entropy drawn advance].
  unfold service_envelope, or_default, reading, unix_reading, entropy_slice.
  cbn [Nat.add].
  destruct (dict_lookup (lit "user_id") d) as [uid|]; [|reflexivity].
  destruct (dict_lookup (lit "username") d) as [un|]; [|reflexivity].
  cbn [fst].
  destruct (str_encode _) as [plain|]; [|reflexivity].
  cbn [clock unix_clock ticks entropy drawn].
  destruct (bytes_decode _); reflexivity.
Qed.

(** A ticket that has expired yields no service ticket. *)
Lemma generate_service_ticket_expired self tgt service_name w v T :
  open_ticket self tgt = Some v -> expiry_of v = Some T -> T < reading w 0 ->
  fst (generate_service_ticket self tgt service_name w) =
    Raise (ValueError "Invalid TGT").
Proof.
  intros Ho HT Hlt. rewrite generate_service_ticket_cases, Ho.
  destruct v as [ | | | | | |d]; try reflexivity.
  rewrite HT, Z.gtb_ltb.
  replace (T <? reading w 0) with true by (symmetry; apply Z.ltb_lt; lia).
  reflexivity.
Qed.

(** X2. [generate_service_ticket] raises [ValueError("Invalid TGT")] exactly
    for the tickets [validate_service_ticket] refuses: one and the same error
    for a ticket that does not decode, does not decrypt, has no readable
    expiry or has expired.  A ticket that is valid but has no [user_id], or no
    [username], makes it raise [KeyError] instead. *)
Theorem generate_service_ticket_refusal self tgt service_name w :
  (fst (validate_service_ticket self tgt w) = Ok false <->
   fst (generate_service_ticket self tgt service_name w) =
     Raise (ValueError "Invalid TGT")) /\
  (forall d,
     fst (validate_service_ticket self tgt w) = Ok true ->
     open_ticket self tgt = Some (VDict d) ->
     (dict_lookup (lit "user_id") d = None ->
      fst (generate_service_ticket self tgt service_name w) =
        Raise (KeyError (lit "user_id"))) /\
     (is_Some (dict_lookup (lit "user_id") d) ->
      dict_lookup (lit "username") d = None ->
      fst (generate_service_ticket self tgt service_name w) =
        Raise (KeyError (lit "username")))).
Proof.
  rewrite generate_service_ticket_cases, validate_service_ticket_eq.
  destruct (open_ticket self tgt) as [v|]; cbn [mbind option_bind].
  2:{ split; [split; reflexivity|]. intros d H. discriminate H. }
  destruct (expiry_of v) as [T|] eqn:HT.
  2:{ split; [|intros d H; discriminate H].
      destruct v; try (split; reflexivity). rewrite HT. split; reflexivity. }
  destruct v as [ | | | | | |d]; try discriminate HT.
  rewrite HT. cbn [fst].
  destruct (reading w 0 >? T); cbn [negb].
  { split; [split; reflexivity|]. intros d' H. discriminate H. }
  split.
  - split; [discriminate|].
    destruct (dict_lookup (lit "user_id") d); [|discriminate].
    destruct (dict_lookup (lit "username") d); [|discriminate].
    destruct (str_encode _); [|discriminate].
    destruct (bytes_decode _); discriminate.
  - intros d' _ [= <-]. split.
    + intros ->. reflexivity.
    + intros [uid ->] ->. reflexivity.
Qed.

(** X7. A username other than [admin], [user] and [guest] is never
    authenticated, whatever the password. *)
Theorem unknown_user_rejected self username password w :
  username <> lit "admin" -> username <> lit "user" -> username <> lit "guest" ->
  fst (authenticate_user self username password w) = Ok None.
Proof.
  intros H1 H2 H3. unfold authenticate_user.
  rewrite authenticate_user_via_eq.
  assert (Hlook : forall u, fst (_get_user_by_username self username w) <> Ok (Some u)).
  { intros u. unfold _get_user_by_username, bcrypt_hash_fresh, User.__init__,
      os_urandom, datetime_now.
    unfold_monad.
    destruct (str_encode (lit "admin123")) as [p1|]; [|discriminate].
    cbn [clock unix_clock ticks entropy drawn].
    destruct (bcrypt_hashpw p1 _) as [h1|]; [|discriminate].
    destruct (str_encode (lit "user123")) as [p2|]; [|discriminate].
    cbn [clock unix_clock ticks entropy drawn].
    destruct (bcrypt_hashpw p2 _) as [h2|]; [|discriminate].
    destruct (str_encode (lit "guest123")) as [p3|]; [|discriminate].
    cbn [clock unix_clock ticks entropy drawn].
    destruct (bcrypt_hashpw p3 _) as [h3|]; [|discriminate].
    cbn [fst users_get].
    rewrite !bool_decide_eq_false_2 by assumption. discriminate. }
  destruct (fst (_get_user_by_username self username w)) as [[u|]|e];
    [destruct (Hlook u); reflexivity | reflexivity | reflexivity].
Qed.

End MoreTickets.

Section MoreIssuing.
Context {L : Libs} {HL : LibsLaws L}.

Lemma service_envelope_expiry self d service_name w :
  expiry_of (VDict (service_envelope self d service_name w)) =
    Some (reading w 2 + service_ticket_lifetime self).
Proof.
  unfold expiry_of, service_envelope.
  change (dict_lookup _ _) with
    (Some (VStr (isoformat (reading w 2 + service_ticket_lifetime self)))).
  apply fromisoformat_isoformat.
Qed.

(** Read back, a service envelope built from an opened ticket is the
    envelope for the service name as JSON reads it back. *)
Lemma service_envelope_read_back self d service_name w :
  json_read_back (VDict d) = VDict d ->
  json_read_back (VDict (service_envelope self d service_name w)) =
    VDict (service_envelope self d (json_str service_name) w).
Proof.
  intros Hd.
  assert (Hk : forall k dflt, json_read_back dflt = dflt ->
    json_read_back (or_default (dict_lookup k d) dflt) =
      or_default (dict_lookup k d) dflt).
  { intros k dflt Hdf. unfold or_default.
    destruct (dict_lookup k d) eqn:E; [|exact Hdf].
    eapply read_back_stable_lookup; [exact Hd | exact E]. }
  unfold service_envelope. cbn [json_read_back List.map fst snd].
  rewrite !(json_str_ascii (isoformat _)) by apply isoformat_ascii.
  rewrite (json_str_ascii (token_urlsafe_text _)) by apply token_urlsafe_ascii.
  rewrite !Hk by reflexivity. reflexivity.
Qed.

Lemma tgt_envelope_stable self user_id username w :
  json_read_back
    (VDict (tgt_envelope self (json_str user_id) (json_str username) w)) =
  VDict (tgt_envelope self (json_str user_id) (json_str username) w).
Proof. rewrite tgt_envelope_read_back, !json_str_idem. reflexivity. Qed.

(** A service ticket issued from an opened, well-formed envelope opens to the
    envelope it was built from, as JSON reads it back. *)
Lemma service_ticket_opens self tgt service_name w d T :
  open_ticket self tgt = Some (VDict d) ->
  expiry_of (VDict d) = Some T ->
  reading w 0 <= T ->
  is_Some (dict_lookup (lit "user_id") d) ->
  is_Some (dict_lookup (lit "username") d) ->
  value_wf (VDict (service_envelope self d service_name w)) = true ->
  json_read_back (VDict d) = VDict d ->
  exists ticket,
    generate_service_ticket self tgt service_name w = (Ok ticket, advance w 4 48) /\
    open_ticket self ticket =
      Some (VDict (service_envelope self d (json_str service_name) w)).
Proof.
  intros Ho HT Hnow Hu Hn Hwf Hd.
  destruct (generate_service_ticket_eq self tgt service_name w d T Ho HT Hnow Hu Hn)
    as (ticket & Hg & Hs).
  exists ticket. split; [exact Hg|].
  rewrite <- (service_envelope_read_back self d service_name w Hd).
  apply (open_sealed _ _ _ _ _ Hs (length_entropy_slice _ _ _) Hwf).
Qed.

(** The service ticket issued at [w1] from the ticket-granting ticket issued
    at [w0], if the latter has not expired by then. *)
Lemma service_from_generated self user_id username w0 tgt w0' service_name w1 :
  generate_tgt self user_id username w0 = (Ok tgt, w0') ->
  reading w1 0 <= reading w0 1 + tgt_lifetime self ->
  exists st,
    generate_service_ticket self tgt service_name w1 = (Ok st, advance w1 4 48) /\
    open_ticket self st =
      Some (VDict (service_envelope self
                     (tgt_envelope self (json_str user_id) (json_str username) w0)
                     (json_str service_name) w1)).
Proof.
  intros Hg Hnow.
  destruct (validate_generated self user_id username w0 tgt w0' w1 Hg) as (Ho & _).
  apply (service_ticket_opens self tgt service_name w1 _ _ Ho
           (tgt_envelope_expiry self _ _ w0) Hnow);
    [eexists; reflexivity | eexists; reflexivity | reflexivity
    | apply tgt_envelope_stable].
Qed.

(** X3. A service ticket issued from a ticket-granting ticket is accepted by
    [validate_service_ticket] at every clock reading up to its own expiry,
    the service-ticket lifetime after it was issued, and refused afterwards;
    [get_ticket_info] shows the subject and the service name as JSON reads
    them back (a surrogate pair joined into one code point, anything else
    unchanged), the two instants and the inherited permissions. *)
Theorem service_ticket_validates self user_id username w0 tgt w0' service_name w1 st w1' w2 :
  generate_tgt self user_id username w0 = (Ok tgt, w0') ->
  generate_service_ticket self tgt service_name w1 = (Ok st, w1') ->
  (fst (validate_service_ticket self st w2) = Ok true <->
   reading w2 0 <= reading w1 2 + service_ticket_lifetime self) /\
  (fst (validate_service_ticket self st w2) = Ok false <->
   reading w1 2 + service_ticket_lifetime self < reading w2 0) /\
  fst (get_ticket_info self st w2) =
    Ok (VDict
      [ (lit "username", VStr (json_str username));
        (lit "service_name", VStr (json_str service_name));
        (lit "issued_at", VStr (isoformat (reading w1 1)));
        (lit "expires_at",
          VStr (isoformat (reading w1 2 + service_ticket_lifetime self)));
        (lit "permissions", default_permissions) ]).
Proof.
  intros Hg Hs.
  destruct (validate_generated self user_id username w0 tgt w0' w1 Hg) as (Ho & Hv).
  assert (Hnow : reading w1 0 <= reading w0 1 + tgt_lifetime self).
  { destruct (Z.le_gt_cases (reading w1 0) (reading w0 1 + tgt_lifetime self))
      as [H|H]; [exact H|].
    pose proof (generate_service_ticket_expired self tgt service_name w1 _ _ Ho
                  (tgt_envelope_expiry self _ _ w0) ltac:(lia)) as Hbad.
    rewrite Hs in Hbad. discriminate Hbad. }
  destruct (service_from_generated self user_id username w0 tgt w0' service_name w1
              Hg Hnow) as (st' & Hs' & Hopen).
  rewrite Hs in Hs'. injection Hs' as <- _.
  rewrite validate_service_ticket_eq, get_ticket_info_eq, Hopen.
  cbn [mbind option_bind]. rewrite service_envelope_expiry. cbn [fst].
  rewrite Z.gtb_ltb.
  destruct (Z.ltb_spec (reading w1 2 + service_ticket_lifetime self) (reading w2 0));
    cbn [negb].
  - split; [split; [discriminate | lia]|]. split; [split; [lia | reflexivity]|].
    reflexivity.
  - split; [split; [lia | reflexivity]|]. split; [split; [discriminate | lia]|].
    reflexivity.
Qed.

(** X4. The ticket kind is not checked: [generate_service_ticket] takes an
    unexpired service ticket in place of a ticket-granting ticket and issues
    a new service ticket for the same subject with the same permissions and a
    lifetime that starts afresh.  The names in it are the names as JSON reads
    them back; passing through a second ticket changes them no further. *)
Theorem service_ticket_renews self user_id username w0 tgt w0' name1 w1 st w1' name2 w2 :
  generate_tgt self user_id username w0 = (Ok tgt, w0') ->
  generate_service_ticket self tgt name1 w1 = (Ok st, w1') ->
  reading w2 0 <= reading w1 2 + service_ticket_lifetime self ->
  exists st2 d2,
    generate_service_ticket self st name2 w2 = (Ok st2, advance w2 4 48) /\
    open_ticket self st2 = Some (VDict d2) /\
    dict_lookup (lit "user_id") d2 = Some (VStr (json_str user_id)) /\
    dict_lookup (lit "username") d2 = Some (VStr (json_str username)) /\
    dict_lookup (lit "service_name") d2 = Some (VStr (json_str name2)) /\
    dict_lookup (lit "permissions") d2 = Some default_permissions /\
    expiry_of (VDict d2) = Some (reading w2 2 + service_ticket_lifetime self).
Proof.
  intros Hg Hs Hnow2.
  destruct (validate_generated self user_id username w0 tgt w0' w1 Hg) as (Ho & Hv).
  assert (Hnow : reading w1 0 <= reading w0 1 + tgt_lifetime self).
  { destruct (Z.le_gt_cases (reading w1 0) (reading w0 1 + tgt_lifetime self))
      as [H|H]; [exact H|].
    pose proof (generate_service_ticket_expired self tgt name1 w1 _ _ Ho
                  (tgt_envelope_expiry self _ _ w0) ltac:(lia)) as Hbad.
    rewrite Hs in Hbad. discriminate Hbad. }
  destruct (service_from_generated self user_id username w0 tgt w0' name1 w1
              Hg Hnow) as (st' & Hs' & Hopen).
  rewrite Hs in Hs'. injection Hs' as <- _.
  set (d0 := tgt_envelope self (json_str user_id) (json_str username) w0) in *.
  set (d1 := service_envelope self d0 (json_str name1) w1) in *.
  assert (Hd1 : json_read_back (VDict d1) = VDict d1).
  { unfold d1. rewrite service_envelope_read_back by apply tgt_envelope_stable.
    rewrite json_str_idem. reflexivity. }
  destruct (service_ticket_opens self st name2 w2 d1 _ Hopen
              (service_envelope_expiry _ _ _ _) Hnow2) as (st2 & Hg2 & Hopen2);
    [eexists; reflexivity | eexists; reflexivity | reflexivity | exact Hd1 |].
  exists st2, (service_envelope self d1 (json_str name2) w2).
  split; [exact Hg2|]. split; [exact Hopen2|].
  repeat split; try reflexivity. apply service_envelope_expiry.
Qed.

(** X6. [get_ticket_info] on a ticket-granting ticket that [generate_tgt] has
    issued shows the name it was issued to as JSON reads it back (a surrogate
    pair joined into one code point, anything else unchanged), no service
    name, the two instants and the permissions; and on no ticket at all does
    the view hold the session key or the user id. *)
Theorem get_ticket_info_of_tgt self user_id username w tgt w' w2 :
  generate_tgt self user_id username w = (Ok tgt, w') ->
  get_ticket_info self tgt w2 =
    (Ok (VDict
      [ (lit "username", VStr (json_str username));
        (lit "service_name", VNone);
        (lit "issued_at", VStr (isoformat (reading w 0)));
        (lit "expires_at", VStr (isoformat (reading w 1 + tgt_lifetime self)));
        (lit "permissions", default_permissions) ]), w2) /\
  (is_ascii username -> json_str username = username) /\
  (forall ticket w3 view,
     fst (get_ticket_info self ticket w3) = Ok (VDict view) ->
     dict_lookup (lit "session_key") view = None /\
     dict_lookup (lit "user_id") view = None /\
     length view = 5%nat).
Proof.
  intros Hg.
  destruct (validate_generated self user_id username w tgt w' w2 Hg) as (Ho & _).
  split; [|split].
  - rewrite get_ticket_info_eq, Ho. reflexivity.
  - apply json_str_ascii.
  - intros ticket w3 view. rewrite get_ticket_info_eq. cbn [fst].
    destruct (open_ticket self ticket) as [[ | | | | | |d]|]; try discriminate.
    unfold ticket_view. intros [= <-]. repeat split.
Qed.

End MoreIssuing.

(** ** The built-in accounts *)

Section Accounts.
Context {L : Libs} {HL : LibsLaws L} {HB : BcryptLaws L}.

Lemma bcrypt_hash_fresh_ok pw w :
  is_ascii pw -> (length pw <= 72)%nat -> x00 ∉ ascii_bytes pw ->
  exists h,
    bcrypt_hash_fresh pw w = (Ok h, advance w 0 16) /\
    bcrypt_checkpw (ascii_bytes pw) h = Some true.
Proof.
  intros Ha Hlen Hz.
  destruct (bcrypt_check_hash (ascii_bytes pw) (entropy_slice w 0 16))
    as (h & Hh & Hc).
  - unfold ascii_bytes. rewrite length_map. exact Hlen.
  - exact Hz.
  - apply length_entropy_slice.
  - exists h. split; [|exact Hc].
    unfold bcrypt_hash_fresh, os_urandom. unfold_monad.
    rewrite (utf8_ascii pw Ha). cbn [entropy drawn].
    change (List.map (entropy w) (seq (drawn w) 16)) with (entropy_slice w 0 16).
    rewrite Hh. reflexivity.
Qed.

(** X8. Each of the three built-in accounts is authenticated with its
    password, and the principal returned is that account's: its name, its id
    and its roles, never logged in, active, with a hash the password checks
    against; every lookup hashes the three passwords anew, at the cost of 48
    random octets and three clock readings. *)
Theorem builtin_accounts_authenticate self username password id roles w :
  In (username, password, id, roles)
     [ (lit "admin", lit "admin123", lit "1", [lit "admin"; lit "user"]);
       (lit "user", lit "user123", lit "2", [lit "user"]);
       (lit "guest", lit "guest123", lit "3", [lit "guest"]) ] ->
  exists u,
    authenticate_user self username password w = (Ok (Some u), advance w 3 48) /\
    User.username u = username /\ User.id u = id /\ User.roles u = roles /\
    User.last_login u = None /\ User.login_count u = 0 /\ User.is_active u = true /\
    bcrypt_checkpw (ascii_bytes password) (User.password_hash u) = Some true.
Proof.
  intros Hin.
  assert (Hpw : forall s, In s [lit "admin123"; lit "user123"; lit "guest123"] ->
    is_ascii s /\ (length s <= 72)%nat /\ x00 ∉ ascii_bytes s).
  { intros s [<- | [<- | [<- | []]]]; (split; [|split]);
      first [ apply forallb_ascii; reflexivity
            | vm_compute; lia
            | apply (bool_decide_unpack _); vm_compute; exact I ]. }
  destruct (Hpw (lit "admin123")) as (A1 & A2 & A3); [simpl; auto|].
  destruct (Hpw (lit "user123")) as (B1 & B2 & B3); [simpl; auto|].
  destruct (Hpw (lit "guest123")) as (C1 & C2 & C3); [simpl; auto|].
  destruct (bcrypt_hash_fresh_ok (lit "admin123") w A1 A2 A3) as (h1 & E1 & K1).
  destruct (bcrypt_hash_fresh_ok (lit "user123") (advance w 1 16) B1 B2 B3)
    as (h2 & E2 & K2).
  destruct (bcrypt_hash_fresh_ok (lit "guest123") (advance w 2 32) C1 C2 C3)
    as (h3 & E3 & K3).
  set (u1 := User.mk (lit "1") (lit "admin") h1 [lit "admin"; lit "user"]
                (reading w 0) None 0 true).
  set (u2 := User.mk (lit "2") (lit "user") h2 [lit "user"] (reading w 1) None 0 true).
  set (u3 := User.mk (lit "3") (lit "guest") h3 [lit "guest"] (reading w 2) None 0 true).
  assert (Hstore : _get_user_by_username self username w =
    (Ok (users_get username [(lit "admin", u1); (lit "user", u2); (lit "guest", u3)]),
     advance w 3 48)).
  { unfold _get_user_by_username, User.__init__, datetime_now.
    unfold bind at 1. rewrite E1. unfold bind at 1, bind at 1, ret at 1.
    cbn [advance clock unix_clock ticks entropy drawn].
    unfold bind at 1.
    change (mkWorld (clock w) (unix_clock w) (S (0 + ticks w)) (entropy w)
              (16 + drawn w)) with (advance w 1 16).
    rewrite E2. unfold bind at 1, bind at 1, ret at 1.
    cbn [advance clock unix_clock ticks entropy drawn].
    unfold bind at 1.
    change (mkWorld (clock w) (unix_clock w) (S (0 + (1 + ticks w))) (entropy w)
              (16 + (16 + drawn w))) with (advance w 2 32).
    rewrite E3. unfold bind at 1, bind at 1, ret at 1.
    cbn [advance clock unix_clock ticks entropy drawn]. reflexivity. }
  assert (Hcheck : forall pw h u w',
    is_ascii pw -> bcrypt_checkpw (ascii_bytes pw) h = Some true ->
    User.password_hash u = h ->
    (ok <- _verify_password self pw (User.password_hash u) ;;
     if ok then ret (Some u) else ret None) w' = (Ok (Some u), w')).
  { intros pw h u w' Ha Hc Hu. unfold bind. rewrite _verify_password_eq.
    rewrite Hu, (utf8_ascii pw Ha), Hc. reflexivity. }
  unfold authenticate_user, authenticate_user_via.
  unfold try_except at 1, bind at 1. rewrite Hstore.
  destruct Hin as [[= <- <- <- <-] | [[= <- <- <- <-] | [[= <- <- <- <-] | []]]].
  - exists u1. change (users_get _ _) with (Some u1).
    rewrite (Hcheck _ h1 u1 _ A1 K1 eq_refl). repeat split. exact K1.
  - exists u2. change (users_get _ _) with (Some u2).
    rewrite (Hcheck _ h2 u2 _ B1 K2 eq_refl). repeat split. exact K2.
  - exists u3. change (users_get _ _) with (Some u3).
    rewrite (Hcheck _ h3 u3 _ C1 K3 eq_refl). repeat split. exact K3.
Qed.

End Accounts.

(** ** Key derivation *)

Section KeyDerivation.
Context {L : Libs}.

Lemma CryptoUtils__init__eq environ w :
  CryptoUtils__init__ environ w =
    (match str_encode (os_getenv environ (lit "CRYPTO_SALT") (lit "kerberos-salt")) with
     | None => Raise UnicodeError
     | Some salt =>
         match str_encode (os_getenv environ (lit "CRYPTO_PASSWORD")
                             (lit "kerberos-password")) with
         | None => Raise UnicodeError
         | Some password =>
             Ok (mkCryptoUtils salt
                   (urlsafe_b64encode (pbkdf2_hmac SHA256 32 salt 100000 password)))
         end
     end, w).
Proof.
  unfold CryptoUtils__init__, _derive_key. unfold_monad.
  destruct (str_encode (os_getenv environ (lit "CRYPTO_SALT") _)) as [salt|];
    [|reflexivity].
  destruct (str_encode (os_getenv environ (lit "CRYPTO_PASSWORD") _)); reflexivity.
Qed.

(** X9. Building the authority reads neither the clock nor the random source,
    and its key depends on the environment through [CRYPTO_SALT] and
    [CRYPTO_PASSWORD] only: two authorities built in environments that agree
    on these two hold the same key and lifetimes, whatever [KERBEROS_SECRET]
    says, and each accepts exactly the tickets the other accepts. *)
Theorem same_environment_same_key environ1 environ2 w1 w2 a1 a2 w1' w2' :
  environ1 (lit "CRYPTO_SALT") = environ2 (lit "CRYPTO_SALT") ->
  environ1 (lit "CRYPTO_PASSWORD") = environ2 (lit "CRYPTO_PASSWORD") ->
  KerberosAuth__init__ environ1 w1 = (Ok a1, w1') ->
  KerberosAuth__init__ environ2 w2 = (Ok a2, w2') ->
  w1' = w1 /\ w2' = w2 /\
  crypto_utils a1 = crypto_utils a2 /\
  tgt_lifetime a1 = tgt_lifetime a2 /\
  service_ticket_lifetime a1 = service_ticket_lifetime a2 /\
  (forall ticket w,
     validate_service_ticket a1 ticket w = validate_service_ticket a2 ticket w /\
     get_ticket_info a1 ticket w = get_ticket_info a2 ticket w).
Proof.
  unfold KerberosAuth__init__, bind, ret.
  rewrite !CryptoUtils__init__eq. unfold os_getenv.
  intros -> ->.
  destruct (str_encode _) as [salt|]; [|discriminate].
  destruct (str_encode _) as [password|]; [|discriminate].
  intros [= <- <-] [= <- <-].
  repeat split; rewrite ?validate_service_ticket_eq, ?get_ticket_info_eq; reflexivity.
Qed.

End KeyDerivation.

(** ** The resource endpoint *)

Section Endpoint.
Context {L : Libs}.

Lemma access_resource_eq kerberos_auth header resource_id w :
  access_resource kerberos_auth header resource_id w =
    match header with
    | None | Some [] =>
        (Ok (VDict [(lit "error", VStr (lit "Service ticket required"))], 401), w)
    | Some service_ticket =>
        match fst (validate_service_ticket kerberos_auth service_ticket w) with
        | Ok true =>
            (Ok (VDict
               [ (lit "resource_id", VStr resource_id);
                 (lit "data", VStr (lit "Protected data for resource " ++ resource_id));
                 (lit "accessed_at", VStr (isoformat (reading w 1))) ], 200),
             advance w 2 0)
        | _ =>
            (Ok (VDict [(lit "error", VStr (lit "Invalid service ticket"))], 403),
             snd (validate_service_ticket kerberos_auth service_ticket w))
        end
    end.
Proof.
  unfold access_resource.
  destruct header as [[|c t]|]; try reflexivity.
  unfold try_except at 1, bind at 1.
  rewrite validate_service_ticket_eq.
  destruct (open_ticket kerberos_auth (c :: t)) as [v|]; cbn [mbind option_bind];
    [|reflexivity].
  destruct (expiry_of v) as [T|]; [|reflexivity].
  cbn [fst snd]. destruct (reading w 0 >? T); reflexivity.
Qed.

(** X10. [access_resource] always answers, with status 401, 403 or 200 and
    never 500: 401 exactly when the [Service-Ticket] header is missing or
    empty, 200 exactly when [validate_service_ticket] accepts the header's
    ticket, 403 otherwise.  Which resource is asked for plays no part in the
    decision. *)
Theorem access_resource_status kerberos_auth header resource_id w :
  exists body status,
    fst (access_resource kerberos_auth header resource_id w) = Ok (body, status) /\
    (status = 401 \/ status = 403 \/ status = 200) /\
    (status = 401 <-> header = None \/ header = Some []) /\
    (status = 200 <->
     exists ticket, header = Some ticket /\ ticket <> [] /\
       fst (validate_service_ticket kerberos_auth ticket w) = Ok true) /\
    (forall resource_id',
       exists body',
         fst (access_resource kerberos_auth header resource_id' w) = Ok (body', status)).
Proof.
  rewrite access_resource_eq.
  destruct header as [[|c t]|].
  - eexists _, 401. split; [reflexivity|]. split; [auto|]. split; [tauto|]. split.
    + split; [discriminate|]. intros (ticket & [= <-] & Hne & _). contradiction.
    + intros r. rewrite access_resource_eq. eauto.
  - destruct (validate_never_raises kerberos_auth (c :: t) w) as (b & Hb).
    destruct (fst (validate_service_ticket kerberos_auth (c :: t) w)) as [[|]|e] eqn:E;
      try discriminate Hb.
    + eexists _, 200. split; [reflexivity|]. split; [auto|]. split.
      { split; [discriminate|]. intros [H|H]; discriminate H. }
      split.
      { split; [|reflexivity]. intros _. exists (c :: t). repeat split; [discriminate|].
        exact E. }
      intros r. rewrite access_resource_eq, E. eauto.
    + eexists _, 403. split; [reflexivity|]. split; [auto|]. split.
      { split; [discriminate|]. intros [H|H]; discriminate H. }
      split.
      { split; [discriminate|]. intros (ticket & [= <-] & _ & H).
        rewrite E in H. discriminate H. }
      intros r. rewrite access_resource_eq, E. eauto.
  - eexists _, 401. split; [reflexivity|]. split; [auto|]. split; [tauto|]. split.
    + split; [discriminate|]. intros (ticket & H & _). discriminate H.
    + intros r. rewrite access_resource_eq. eauto.
Qed.

End Endpoint.

Section EndpointTickets.
Context {L : Libs} {HL : LibsLaws L}.

(** X11. The endpoint does not look at the ticket's kind, service name or
    permissions: a ticket-granting ticket put in the [Service-Ticket] header
    opens every resource until it expires. *)
Theorem tgt_opens_every_resource self user_id username w tgt w' w2 resource_id :
  generate_tgt self user_id username w = (Ok tgt, w') ->
  tgt <> [] ->
  reading w2 0 <= reading w 1 + tgt_lifetime self ->
  access_resource self (Some tgt) resource_id w2 =
    (Ok (VDict
       [ (lit "resource_id", VStr resource_id);
         (lit "data", VStr (lit "Protected data for resource " ++ resource_id));
         (lit "accessed_at", VStr (isoformat (reading w2 1))) ], 200),
     advance w2 2 0).
Proof.
  intros Hg Hne Hnow. rewrite access_resource_eq.
  destruct tgt as [|c t]; [contradiction|].
  destruct (validate_generated self user_id username w (c :: t) w' w2 Hg) as (_ & ->).
  cbn [fst]. rewrite Z.gtb_ltb.
  replace (_ <? _) with false by (symmetry; apply Z.ltb_ge; lia).
  reflexivity.
Qed.

(** X22. The intended path: a service ticket issued from a ticket-granting
    ticket opens the resource endpoint, status 200, at every clock reading up
    to the service ticket's expiry, and is turned away with status 403 after
    it, even while the ticket-granting ticket is still valid. *)
Theorem service_ticket_opens_resource self user_id username w0 tgt w0'
    service_name w1 st w1' resource_id w2 :
  generate_tgt self user_id username w0 = (Ok tgt, w0') ->
  generate_service_ticket self tgt service_name w1 = (Ok st, w1') ->
  st <> [] ->
  exists body status,
    fst (access_resource self (Some st) resource_id w2) = Ok (body, status) /\
    (reading w2 0 <= reading w1 2 + service_ticket_lifetime self ->
     status = 200 /\
     dict_lookup (lit "resource_id") (match body with VDict d => d | _ => [] end)
       = Some (VStr resource_id)) /\
    (reading w1 2 + service_ticket_lifetime self < reading w2 0 -> status = 403).
Proof.
  intros Hg Hs Hne.
  destruct (validate_generated self user_id username w0 tgt w0' w1 Hg) as (Ho & _).
  assert (Hnow : reading w1 0 <= reading w0 1 + tgt_lifetime self).
  { destruct (Z.le_gt_cases (reading w1 0) (reading w0 1 + tgt_lifetime self))
      as [H|H]; [exact H|].
    pose proof (generate_service_ticket_expired self tgt service_name w1 _ _ Ho
                  (tgt_envelope_expiry self user_id username w0) ltac:(lia)) as Hbad.
    rewrite Hs in Hbad. discriminate Hbad. }
  destruct (service_from_generated self user_id username w0 tgt w0' service_name w1
              Hg Hnow) as (st' & Hs' & Hopen).
  rewrite Hs in Hs'. injection Hs' as <- _.
  rewrite access_resource_eq. destruct st as [|c t]; [contradiction|].
  rewrite validate_service_ticket_eq, Hopen. cbn [mbind option_bind].
  rewrite service_envelope_expiry. cbn [fst snd]. rewrite Z.gtb_ltb.
  destruct (Z.ltb_spec (reading w1 2 + service_ticket_lifetime self) (reading w2 0));
    cbn [negb].
  - eexists _, 403. split; [reflexivity|]. split; [lia | reflexivity].
  - eexists _, 200. split; [reflexivity|]. split; [split; reflexivity | lia].
Qed.

End EndpointTickets.

(** ** Random values, digests and base64 *)

Lemma hex_digit_code_lower (k : N) : (k < 16)%N -> is_lower_hex (hex_digit_code k).
Proof.
  intros Hk. unfold is_lower_hex, hex_digit_code.
  destruct (N.ltb_spec k 10); lia.
Qed.

Lemma hex_text_length (b : bytes) : length (hex_text b) = (2 * length b)%nat.
Proof.
  unfold hex_text. induction b as [|x b IH]; [reflexivity|].
  cbn [flat_map app length]. rewrite IH. lia.
Qed.

Lemma hex_text_lower (b : bytes) : Forall is_lower_hex (hex_text b).
Proof.
  unfold hex_text. induction b as [|x b IH]; [constructor|].
  cbn [flat_map app]. pose proof (Byte.to_N_bounded x) as Hx.
  constructor; [|constructor; [|exact IH]]; apply hex_digit_code_lower.
  - apply N.Div0.div_lt_upper_bound. lia.
  - apply N.mod_lt. lia.
Qed.

Lemma hex_text_ascii (b : bytes) : is_ascii (hex_text b).
Proof.
  unfold is_ascii. eapply Forall_impl; [apply hex_text_lower|].
  intros c [H|H]; lia.
Qed.

Lemma compare_digest_ascii a b :
  is_ascii a -> is_ascii b -> compare_digest a b = Ok (bool_decide (a = b)).
Proof.
  intros Ha Hb. unfold compare_digest.
  apply forallb_ascii in Ha, Hb. rewrite Ha, Hb. reflexivity.
Qed.

Section Tokens.
Context {L : Libs} {D : MoreLibs}.

(** X13. [generate_nonce] returns 32 characters, each a digit or a letter from
    [a] to [f], spelling the 16 octets it has just drawn; the next nonce
    spells the 16 octets after those. *)
Theorem generate_nonce_format w :
  generate_nonce w = (Ok (hex_text (entropy_slice w 0 16)), advance w 0 16) /\
  length (hex_text (entropy_slice w 0 16)) = 32%nat /\
  Forall is_lower_hex (hex_text (entropy_slice w 0 16)) /\
  generate_nonce (advance w 0 16) =
    (Ok (hex_text (entropy_slice w 16 16)), advance w 0 32).
Proof.
  split; [reflexivity|]. split.
  - rewrite hex_text_length, length_entropy_slice. reflexivity.
  - split; [apply hex_text_lower | reflexivity].
Qed.

(** X15. [verify_hmac] accepts the tag [compute_hmac] returns for the same
    data and key; against any other ASCII text it answers whether that text
    equals the tag, as [secure_compare] does; a text with a character outside
    ASCII makes it raise [TypeError]. *)
Theorem verify_hmac_spec data key expected kb db w :
  str_encode key = Some kb -> str_encode data = Some db ->
  let tag := hex_text (hmac_sha256 kb db) in
  compute_hmac data key w = (Ok tag, w) /\
  verify_hmac data key tag w = (Ok true, w) /\
  (is_ascii expected ->
   verify_hmac data key expected w = (Ok (bool_decide (tag = expected)), w)) /\
  (~ is_ascii expected -> verify_hmac data key expected w = (Raise TypeError, w)) /\
  verify_hmac data key expected w = secure_compare tag expected w.
Proof.
  intros Hk Hd tag.
  assert (Hc : compute_hmac data key w = (Ok tag, w)).
  { unfold compute_hmac. unfold_monad. rewrite Hk, Hd. reflexivity. }
  assert (Hv : forall e, verify_hmac data key e w = (compare_digest tag e, w)).
  { intros e. unfold verify_hmac, bind. rewrite Hc. reflexivity. }
  split; [exact Hc|]. split.
  - rewrite Hv, compare_digest_ascii by apply hex_text_ascii.
    rewrite bool_decide_eq_true_2 by reflexivity. reflexivity.
  - split; [|split].
    + intros He. rewrite Hv, compare_digest_ascii by (apply hex_text_ascii || exact He).
      reflexivity.
    + intros He. rewrite Hv. unfold compare_digest.
      destruct (forallb _ expected) eqn:E.
      * apply forallb_ascii in E. contradiction.
      * rewrite andb_false_r. reflexivity.
    + rewrite Hv. reflexivity.
Qed.

End Tokens.

Section Digests.
Context {L : Libs} {D : MoreLibs} {HD : MoreLaws L D}.

(** X14. On text that has a UTF-8 encoding, [compute_hmac] and [hash_sha256]
    return 64 characters, each a digit or a letter from [a] to [f]; on text
    that has none they raise [UnicodeError]. *)
Theorem digests_are_hex data key w :
  (forall kb db, str_encode key = Some kb -> str_encode data = Some db ->
     exists tag, compute_hmac data key w = (Ok tag, w) /\
                 length tag = 64%nat /\ Forall is_lower_hex tag) /\
  (forall db, str_encode data = Some db ->
     exists digest, hash_sha256 data w = (Ok digest, w) /\
                    length digest = 64%nat /\ Forall is_lower_hex digest) /\
  (str_encode data = None ->
     hash_sha256 data w = (Raise UnicodeError, w) /\
     compute_hmac data key w = (Raise UnicodeError, w)).
Proof.
  split; [|split].
  - intros kb db Hk Hd. eexists. split.
    + unfold compute_hmac. unfold_monad. rewrite Hk, Hd. reflexivity.
    + split; [|apply hex_text_lower].
      rewrite hex_text_length, hmac_sha256_length. reflexivity.
  - intros db Hd. eexists. split.
    + unfold hash_sha256. unfold_monad. rewrite Hd. reflexivity.
    + split; [|apply hex_text_lower].
      rewrite hex_text_length, sha256_length. reflexivity.
  - intros Hd. split.
    + unfold hash_sha256. unfold_monad. rewrite Hd. reflexivity.
    + unfold compute_hmac. unfold_monad. rewrite Hd.
      destruct (str_encode key); reflexivity.
Qed.

End Digests.

Section Base64AndAes.
Context {L : Libs} {HL : LibsLaws L}.

(** X16. [decode_base64] undoes [encode_base64]: every byte string is encoded
    to ASCII text, and that text decodes to the byte string. *)
Theorem decode_encode_base64 (data : bytes) w :
  exists s,
    encode_base64 data w = (Ok s, w) /\ is_ascii s /\
    forall w2, decode_base64 s w2 = (Ok data, w2).
Proof.
  destruct (b64encode_ascii data) as (s & Hs & Hb).
  pose proof (utf8_ascii s Hs) as He. rewrite <- Hb in He.
  exists s. split; [|split; [exact Hs|]].
  - unfold encode_base64. unfold_monad.
    rewrite (utf8_decode_encode _ _ He). reflexivity.
  - intros w2. unfold decode_base64. unfold_monad.
    rewrite He, b64decode_encode. reflexivity.
Qed.

(** Padding and its removal, with lengths in octets. *)
Lemma pad_then_unpad (d : bytes) :
  exists p,
    _pad_data d = Ok p /\ (length p mod 16 = 0)%nat /\ _unpad_data p = Ok d.
Proof.
  pose proof (Z.mod_pos_bound (len d) 16 ltac:(lia)) as Hm.
  destruct (_pad_data_eq d) as (b & Hv & Hp).
  set (n := 16 - len d mod 16) in *.
  exists (d ++ replicate (Z.to_nat n) b). split; [exact Hp|]. split.
  - rewrite length_app, length_replicate.
    pose proof (Z.div_mod (len d) 16 ltac:(lia)) as Hdm.
    assert (H : len d + n = (len d / 16 + 1) * 16) by lia.
    unfold len in H.
    assert (H' : (length d + Z.to_nat n = Z.to_nat (Z.of_nat (length d) / 16 + 1) * 16)%nat).
    { unfold len in *. nia. }
    rewrite H'. apply Nat.Div0.mod_mul.
  - unfold _unpad_data.
    destruct (Z.to_nat n) as [|k] eqn:Hk; [lia|].
    rewrite replicate_S_end, app_assoc, getitem_last_snoc, Hv.
    rewrite slice_to_neg by lia. f_equal.
    rewrite <- app_assoc, <- replicate_S_end, <- Hk.
    rewrite length_app, length_replicate.
    replace (length d + Z.to_nat n - Z.to_nat n)%nat with (length d) by lia.
    apply take_app_length.
Qed.

Context {HA : AesLaws L}.

(** X17. Under a 32-octet key, [aes_decrypt] undoes [aes_encrypt] on every
    text that has a UTF-8 encoding; the IV returned with the ciphertext is
    the 16 octets drawn for this call.  A key from [generate_aes_key] is such
    a key. *)
Theorem aes_decrypt_encrypt plaintext key w :
  is_Some (str_encode plaintext) -> length key = 32%nat ->
  (exists ciphertext,
     aes_encrypt plaintext key w =
       (Ok (ciphertext, entropy_slice w 0 16), advance w 0 16) /\
     forall w2, aes_decrypt ciphertext key (entropy_slice w 0 16) w2 =
                  (Ok plaintext, w2)) /\
  (exists fresh,
     generate_aes_key w = (Ok fresh, advance w 0 32) /\ length fresh = 32%nat /\
     exists ciphertext iv,
       aes_encrypt plaintext fresh (advance w 0 32) =
         (Ok (ciphertext, iv), advance w 0 48) /\
       forall w2, aes_decrypt ciphertext fresh iv w2 = (Ok plaintext, w2)).
Proof.
  intros [plain He] Hkey.
  assert (Hany : forall k w0, length k = 32%nat ->
    exists ciphertext,
      aes_encrypt plaintext k w0 =
        (Ok (ciphertext, entropy_slice w0 0 16), advance w0 0 16) /\
      forall w2, aes_decrypt ciphertext k (entropy_slice w0 0 16) w2 =
                   (Ok plaintext, w2)).
  { intros k w0 Hk.
    destruct (pad_then_unpad plain) as (padded & Hpad & Hlen & Hunpad).
    destruct (aes_cbc_decrypt_encrypt k (entropy_slice w0 0 16) padded Hk
                (length_entropy_slice _ _ _) Hlen) as (c & Hc & Hdec).
    exists c. split.
    - unfold aes_encrypt, os_urandom. unfold_monad. rewrite He.
      cbn [entropy drawn]. rewrite Hpad.
      change (List.map (entropy w0) (seq (drawn w0) 16)) with (entropy_slice w0 0 16).
      rewrite Hc. reflexivity.
    - intros w2. unfold aes_decrypt. unfold_monad.
      rewrite Hdec, Hunpad, (utf8_decode_encode _ _ He). reflexivity. }
  split; [apply Hany, Hkey|].
  exists (entropy_slice w 0 32). split; [reflexivity|].
  split; [apply length_entropy_slice|].
  destruct (Hany (entropy_slice w 0 32) (advance w 0 32) (length_entropy_slice _ _ _))
    as (c & Hc & Hd).
  exists c, (entropy_slice (advance w 0 32) 0 16). split; [exact Hc | exact Hd].
Qed.

End Base64AndAes.

(** ** The [User] object *)

Lemma has_role_In u r : UserMethods.has_role u r = true <-> In r (User.roles u).
Proof.
  unfold UserMethods.has_role. rewrite existsb_exists. split.
  - intros (x & Hx & He). apply bool_decide_eq_true in He. subst. exact Hx.
  - intros H. exists r. split; [exact H | apply bool_decide_eq_true; reflexivity].
Qed.

Lemma has_role_false u r : UserMethods.has_role u r = false <-> ~ In r (User.roles u).
Proof.
  rewrite <- has_role_In. destruct (UserMethods.has_role u r).
  - split; [discriminate | intros H; destruct H; reflexivity].
  - split; [intros _; discriminate | reflexivity].
Qed.

Lemma list_remove_split r l :
  In r l ->
  exists l1 l2, l = l1 ++ r :: l2 /\ ~ In r l1 /\ UserMethods.list_remove r l = l1 ++ l2.
Proof.
  induction l as [|y l IH]; [intros []|]. intros Hin. cbn [UserMethods.list_remove].
  destruct (bool_decide_reflect (y = r)) as [->|Hne].
  - exists [], l. repeat split. intros [].
  - destruct Hin as [->|Hin]; [contradiction|].
    destruct (IH Hin) as (l1 & l2 & -> & Hn & ->).
    exists (y :: l1), l2. repeat split. intros [H|H]; [contradiction | exact (Hn H)].
Qed.

Lemma list_remove_other r r' l :
  r' <> r -> (In r' (UserMethods.list_remove r l) <-> In r' l).
Proof.
  intros Hne. induction l as [|y l IH]; [reflexivity|]. cbn [UserMethods.list_remove].
  destruct (bool_decide_reflect (y = r)) as [->|Hy].
  - split; [right; assumption | intros [H|H]; [congruence | exact H]].
  - cbn [In]. rewrite IH. reflexivity.
Qed.

Lemma list_remove_snoc r l : ~ In r l -> UserMethods.list_remove r (l ++ [r]) = l.
Proof.
  induction l as [|y l IH]; intros Hn; cbn [app UserMethods.list_remove].
  - rewrite bool_decide_eq_true_2 by reflexivity. reflexivity.
  - rewrite bool_decide_eq_false_2 by (intros ->; apply Hn; left; reflexivity).
    rewrite IH; [reflexivity|]. intros H. apply Hn. right. exact H.
Qed.

(** X18. After [add_role r] the user has the role [r] and exactly the roles
    held before besides; a duplicate-free role list stays duplicate-free,
    and adding a role already held, or adding twice, changes nothing. *)
Theorem add_role_spec u r :
  UserMethods.has_role (UserMethods.add_role u r) r = true /\
  (forall r', r' <> r ->
     UserMethods.has_role (UserMethods.add_role u r) r' = UserMethods.has_role u r') /\
  (NoDup (User.roles u) -> NoDup (User.roles (UserMethods.add_role u r))) /\
  (UserMethods.has_role u r = true -> UserMethods.add_role u r = u) /\
  UserMethods.add_role (UserMethods.add_role u r) r = UserMethods.add_role u r.
Proof.
  assert (Hhas : UserMethods.has_role (UserMethods.add_role u r) r = true).
  { unfold UserMethods.add_role.
    destruct (UserMethods.has_role u r) eqn:E; cbn [negb]; [exact E|].
    apply has_role_In. cbn [UserMethods.with_roles User.roles]. apply in_or_app.
    right. left. reflexivity. }
  split; [exact Hhas|]. split; [|split; [|split]].
  - intros r' Hne. unfold UserMethods.add_role.
    destruct (UserMethods.has_role u r); cbn [negb]; [reflexivity|].
    destruct (UserMethods.has_role u r') eqn:E'.
    + apply has_role_In. apply has_role_In in E'.
      cbn [UserMethods.with_roles User.roles]. apply in_or_app. left. exact E'.
    + apply has_role_false. apply has_role_false in E'.
      cbn [UserMethods.with_roles User.roles]. intros H.
      apply in_app_or in H as [H|[H|[]]]; [exact (E' H) | congruence].
  - intros Hnd. unfold UserMethods.add_role.
    destruct (UserMethods.has_role u r) eqn:E; cbn [negb]; [exact Hnd|].
    cbn [UserMethods.with_roles User.roles]. apply has_role_false in E.
    apply NoDup_app. split; [exact Hnd|]. split.
    + intros x Hx Hx'. apply list_elem_of_In in Hx, Hx'.
      destruct Hx' as [<-|[]]. exact (E Hx).
    + apply NoDup_singleton.
  - intros E. unfold UserMethods.add_role. rewrite E. reflexivity.
  - unfold UserMethods.add_role at 1. rewrite Hhas. reflexivity.
Qed.

(** X19. [remove_role r] takes away the first occurrence of [r] only: if [r]
    is listed twice the user still has it afterwards; with a duplicate-free
    list the role is gone.  Other roles are untouched, removing a role not
    held changes nothing, and removing a role that was just added to a user
    who did not have it gives the user back. *)
Theorem remove_role_spec u r :
  (UserMethods.has_role u r = true ->
   exists l1 l2,
     User.roles u = l1 ++ r :: l2 /\ ~ In r l1 /\
     User.roles (UserMethods.remove_role u r) = l1 ++ l2 /\
     (UserMethods.has_role (UserMethods.remove_role u r) r = true <-> In r l2)) /\
  (NoDup (User.roles u) ->
   UserMethods.has_role (UserMethods.remove_role u r) r = false) /\
  (forall r', r' <> r ->
     UserMethods.has_role (UserMethods.remove_role u r) r' = UserMethods.has_role u r') /\
  (UserMethods.has_role u r = false ->
   UserMethods.remove_role u r = u /\
   UserMethods.remove_role (UserMethods.add_role u r) r = u).
Proof.
  split; [|split; [|split]].
  - intros E. pose proof E as Hin. apply has_role_In in Hin.
    destruct (list_remove_split r _ Hin) as (l1 & l2 & H1 & Hn & H2).
    exists l1, l2. split; [exact H1|]. split; [exact Hn|].
    unfold UserMethods.remove_role. rewrite E.
    cbn [UserMethods.with_roles User.roles]. split; [exact H2|].
    rewrite has_role_In. cbn [UserMethods.with_roles User.roles]. rewrite H2.
    rewrite in_app_iff. tauto.
  - intros Hnd. unfold UserMethods.remove_role.
    destruct (UserMethods.has_role u r) eqn:E; [|exact E].
    apply has_role_false. cbn [UserMethods.with_roles User.roles].
    pose proof E as Hin. apply has_role_In in Hin.
    destruct (list_remove_split r _ Hin) as (l1 & l2 & H1 & Hn & ->).
    rewrite H1 in Hnd. apply NoDup_app in Hnd as (_ & Hd & Hnd2).
    apply NoDup_cons in Hnd2 as (Hr & _).
    intros H. apply in_app_or in H as [H|H]; [exact (Hn H)|].
    apply Hr. apply list_elem_of_In. exact H.
  - intros r' Hne. unfold UserMethods.remove_role.
    destruct (UserMethods.has_role u r); [|reflexivity].
    destruct (UserMethods.has_role u r') eqn:E'.
    + apply has_role_In. apply has_role_In in E'.
      cbn [UserMethods.with_roles User.roles]. apply list_remove_other; assumption.
    + apply has_role_false. apply has_role_false in E'.
      cbn [UserMethods.with_roles User.roles]. intros H. apply E'.
      apply (list_remove_other r r' _ Hne). exact H.
  - intros E. split.
    + unfold UserMethods.remove_role. rewrite E. reflexivity.
    + unfold UserMethods.remove_role.
      replace (UserMethods.has_role (UserMethods.add_role u r) r) with true.
      * unfold UserMethods.add_role. rewrite E. cbn [negb].
        cbn [UserMethods.with_roles User.roles User.id User.username
             User.password_hash User.created_at User.last_login User.login_count
             User.is_active].
        rewrite list_remove_snoc by (apply has_role_false; exact E).
        destruct u; reflexivity.
      * symmetry. unfold UserMethods.add_role. rewrite E. cbn [negb].
        apply has_role_In. cbn [UserMethods.with_roles User.roles].
        apply in_or_app. right. left. reflexivity.
Qed.

Section UserSerialisation.
Context {L : Libs} {D : MoreLibs} {HL : LibsLaws L} {HD : MoreLaws L D}.

Lemma roles_shape (roles : list str) : forallb value_shape (List.map VStr roles) = true.
Proof. induction roles; [reflexivity | exact IHroles]. Qed.

Lemma roles_depth (roles : list str) :
  list_max (List.map value_depth (List.map VStr roles)) = 0%nat.
Proof. induction roles; [reflexivity | exact IHroles]. Qed.

Lemma roles_read_back (roles : list str) :
  List.map json_read_back (List.map VStr roles) = List.map VStr (List.map json_str roles).
Proof. induction roles as [|r roles IH]; [reflexivity|]. cbn. rewrite IH. reflexivity. Qed.

Lemma map_VStr_inj (a b : list str) : List.map VStr a = List.map VStr b -> a = b.
Proof.
  revert b. induction a as [|x a IH]; intros [|y b]; try discriminate; [reflexivity|].
  cbn. intros [= -> H]. f_equal. apply IH, H.
Qed.

Lemma to_dict_wf u :
  - 2 ^ 63 <= User.login_count u < 2 ^ 63 -> value_wf (UserMethods.to_dict u) = true.
Proof.
  intros Hc. unfold value_wf. apply andb_true_intro. split.
  - unfold UserMethods.to_dict. cbn [value_shape forallb snd fst].
    rewrite roles_shape.
    replace (- 2 ^ 63 <=? User.login_count u) with true
      by (symmetry; apply Z.leb_le; lia).
    replace (User.login_count u <? 2 ^ 63) with true
      by (symmetry; apply Z.ltb_lt; lia).
    destruct (User.last_login u); reflexivity.
  - unfold UserMethods.to_dict. cbn [value_depth List.map snd].
    rewrite roles_depth. destruct (User.last_login u); reflexivity.
Qed.

Lemma to_dict_read_back u :
  json_read_back (UserMethods.to_dict u) = UserMethods.to_dict (UserMethods.read_back u).
Proof.
  unfold UserMethods.to_dict, UserMethods.read_back.
  cbn [json_read_back List.map fst snd User.id User.username User.roles
       User.created_at User.last_login User.login_count User.is_active].
  rewrite roles_read_back.
  rewrite (json_str_ascii (isoformat _)) by apply isoformat_ascii.
  destruct (User.last_login u) as [t|]; [|reflexivity].
  cbn [json_read_back].
  rewrite (json_str_ascii (isoformat t)) by apply isoformat_ascii. reflexivity.
Qed.

(** X20. [to_json] prints ASCII text, as long as the login count fits 64
    bits, and [json.loads] reads it back as [to_dict] of the user whose id,
    name and roles are the user's as JSON reads them back (a surrogate pair
    joined into one code point, anything else unchanged).  That is [to_dict]
    of the user itself exactly when none of these texts holds a surrogate
    pair.  The password hash is not part of the dictionary. *)
Theorem to_json_roundtrip u :
  - 2 ^ 63 <= User.login_count u < 2 ^ 63 ->
  is_ascii (UserMethods.to_json u) /\
  json_loads (UserMethods.to_json u) =
    Some (UserMethods.to_dict (UserMethods.read_back u)) /\
  (json_loads (UserMethods.to_json u) = Some (UserMethods.to_dict u) <->
   json_str (User.id u) = User.id u /\
   json_str (User.username u) = User.username u /\
   List.map json_str (User.roles u) = User.roles u) /\
  getitem (UserMethods.to_dict u) (lit "password_hash") =
    Raise (KeyError (lit "password_hash")).
Proof.
  intros Hc.
  assert (Hl : json_loads (UserMethods.to_json u) =
               Some (UserMethods.to_dict (UserMethods.read_back u))).
  { unfold UserMethods.to_json.
    rewrite json_loads_dumps by (apply to_dict_wf, Hc).
    rewrite to_dict_read_back. reflexivity. }
  split; [apply json_dumps_ascii|]. split; [exact Hl|]. split; [|reflexivity].
  rewrite Hl. unfold UserMethods.to_dict, UserMethods.read_back.
  cbn [User.id User.username User.roles User.created_at User.last_login
       User.login_count User.is_active].
  split.
  - intros [= Hi Hn Hr]. apply map_VStr_inj in Hr. auto.
  - intros (-> & -> & ->). reflexivity.
Qed.

(** X21. [from_dict] cannot read what [to_dict] writes: the password hash is
    missing, and it raises [KeyError('password_hash')] before anything is
    built.  With the hash put back it restores the identity, the roles (an
    empty role list becomes [['user']]), both dates, the login count and the
    active flag. *)
Theorem from_dict_of_to_dict u w :
  UserMethods.from_dict (UserMethods.to_dict u) w =
    (Raise (KeyError (lit "password_hash")), w) /\
  (forall ph d,
     UserMethods.to_dict u = VDict d ->
     isoformat (User.created_at u) <> [] ->
     (forall t, User.last_login u = Some t -> isoformat t <> []) ->
     UserMethods.from_dict (VDict ((lit "password_hash", ph) :: d)) w =
       (Ok (UserMethods.mk_obj
              (VStr (User.id u)) (VStr (User.username u)) ph
              (match User.roles u with
               | [] => VList [VStr (lit "user")]
               | _ => VList (List.map VStr (User.roles u))
               end)
              (User.created_at u, None)
              (match User.last_login u with
               | Some t => Some (t, None)
               | None => None
               end)
              (VInt (User.login_count u)) (VBool (User.is_active u))),
        advance w 1 0)).
Proof.
  split; [reflexivity|].
  intros ph d Hd Hc Hl. injection Hd as <-.
  unfold UserMethods.from_dict, UserMethods.present_and_true,
    UserMethods.datetime_fromisoformat_any, datetime_now.
  unfold_monad.
  cbn [getitem dict_get].
  change (dict_lookup (lit "id") _) with (Some (VStr (User.id u))).
  change (dict_lookup (lit "username") _) with (Some (VStr (User.username u))).
  change (dict_lookup (lit "password_hash") _) with (Some ph).
  change (dict_lookup (lit "roles") _)
    with (Some (VList (List.map VStr (User.roles u)))).
  change (dict_lookup (lit "created_at") _)
    with (Some (VStr (isoformat (User.created_at u)))).
  change (dict_lookup (lit "last_login") _)
    with (Some (match User.last_login u with
                | Some t => VStr (isoformat t)
                | None => VNone
                end)).
  change (dict_lookup (lit "login_count") _) with (Some (VInt (User.login_count u))).
  change (dict_lookup (lit "is_active") _) with (Some (VBool (User.is_active u))).
  cbn [truthy]. rewrite bool_decide_eq_false_2 by exact Hc. cbn [negb].
  rewrite parse_isoformat_isoformat.
  destruct (User.last_login u) as [t|] eqn:El; cbn [truthy].
  - rewrite bool_decide_eq_false_2 by (apply Hl; reflexivity). cbn [negb].
    rewrite parse_isoformat_isoformat.
    destruct (User.roles u); reflexivity.
  - destruct (User.roles u); reflexivity.
Qed.

End UserSerialisation.

(** ** The library model satisfies the further laws *)

Module RefMoreLaws.

Lemma digest32_length data : length (RefMore.digest32 data) = 32%nat.
Proof.
  unfold RefMore.digest32. rewrite length_take, length_app, length_replicate. lia.
Qed.

Lemma more_laws : MoreLaws Ref.libs RefMore.more.
Proof.
  constructor.
  - intros data. apply digest32_length.
  - intros key data. apply digest32_length.
  - intros t. cbn [parse_isoformat RefMore.more isoformat Ref.libs].
    rewrite RefLaws.parse_print_instant. reflexivity.
Qed.

Lemma aes_laws : AesLaws Ref.libs.
Proof.
  constructor. intros key iv data Hk Hi Hd.
  cbn [aes_cbc_encrypt aes_cbc_decrypt Ref.libs].
  unfold Ref.cbc_encrypt, Ref.cbc_decrypt, Ref.aes_sizes_ok.
  exists (rev data). rewrite length_rev, Hk, Hi, Hd. cbn [Nat.eqb andb].
  rewrite rev_involutive. split; reflexivity.
Qed.

Lemma b16encode_length b : length (Ref.b16encode b) = (2 * length b)%nat.
Proof.
  unfold Ref.b16encode. induction b as [|x b IH]; [reflexivity|].
  cbn [flat_map app length]. rewrite IH. lia.
Qed.

Lemma bcrypt_laws : BcryptLaws Ref.libs.
Proof.
  constructor. intros pw rnd _ _ Hr.
  cbn [bcrypt_hashpw bcrypt_checkpw bcrypt_salt_text Ref.libs].
  unfold Ref.hashpw, Ref.checkpw, Ref.salt_text.
  assert (Hs : length (Ref.b16encode rnd) = 32%nat) by (rewrite b16encode_length; lia).
  rewrite Hs. cbn [Nat.eqb]. eexists. split; [reflexivity|].
  replace (32 <=? length (Ref.b16encode rnd ++ pw))%nat with true
    by (symmetry; apply Nat.leb_le; rewrite length_app; lia).
  rewrite <- Hs, drop_app_length.
  rewrite bool_decide_eq_true_2 by reflexivity. reflexivity.
Qed.

End RefMoreLaws.

(** ** The further statements at work *)

Section MoreConcrete.
#[local] Existing Instance Ref.libs.
#[local] Existing Instance RefMore.more.

Lemma validity_is_monotone_witness :
  fst (validate_service_ticket Ref.auth Ref.tgt0 (Ref.world_at 3600000000)) = Ok true.
Proof.
  apply (validity_is_monotone Ref.auth Ref.tgt0 (Ref.world_at 3600000000)
           (Ref.world_at 7200000000)).
  - vm_compute. discriminate.
  - vm_compute. reflexivity.
Defined.

Lemma unknown_user_rejected_witness :
  fst (authenticate_user Ref.auth (lit "mallory") (lit "admin123") Ref.world0) = Ok None.
Proof.
  apply unknown_user_rejected; vm_compute; discriminate.
Defined.

Lemma service_ticket_validates_witness :
  exists st,
    generate_service_ticket Ref.auth Ref.tgt0 (lit "reporting-api")
      (Ref.world_at 3600000000) = (Ok st, advance (Ref.world_at 3600000000) 4 48) /\
    fst (validate_service_ticket Ref.auth st (Ref.world_at 7200000000)) = Ok true.
Proof.
  destruct (service_from_generated (HL := RefLaws.laws) Ref.auth (lit "1") (lit "admin")
              Ref.world0 Ref.tgt0 (advance Ref.world0 3 48) (lit "reporting-api")
              (Ref.world_at 3600000000) tgt0_issued)
    as (st & Hs & _); [vm_compute; discriminate|].
  exists st. split; [exact Hs|].
  apply (service_ticket_validates (HL := RefLaws.laws) Ref.auth (lit "1") (lit "admin")
           Ref.world0 Ref.tgt0 (advance Ref.world0 3 48) (lit "reporting-api")
           (Ref.world_at 3600000000) st _ (Ref.world_at 7200000000) tgt0_issued Hs).
  vm_compute. discriminate.
Defined.

Lemma service_ticket_renews_witness :
  exists st st2,
    generate_service_ticket Ref.auth Ref.tgt0 (lit "reporting-api")
      (Ref.world_at 3600000000) = (Ok st, advance (Ref.world_at 3600000000) 4 48) /\
    generate_service_ticket Ref.auth st (lit "billing-api")
      (Ref.world_at 7200000000) = (Ok st2, advance (Ref.world_at 7200000000) 4 48).
Proof.
  destruct (service_from_generated (HL := RefLaws.laws) Ref.auth (lit "1") (lit "admin")
              Ref.world0 Ref.tgt0 (advance Ref.world0 3 48) (lit "reporting-api")
              (Ref.world_at 3600000000) tgt0_issued)
    as (st & Hs & _); [vm_compute; discriminate|].
  destruct (service_ticket_renews (HL := RefLaws.laws) Ref.auth (lit "1") (lit "admin")
              Ref.world0 Ref.tgt0 (advance Ref.world0 3 48) (lit "reporting-api")
              (Ref.world_at 3600000000) st _ (lit "billing-api")
              (Ref.world_at 7200000000) tgt0_issued Hs)
    as (st2 & d2 & Hg2 & _); [vm_compute; discriminate|].
  exists st, st2. split; [exact Hs | exact Hg2].
Defined.

Lemma get_ticket_info_of_tgt_witness :
  fst (get_ticket_info Ref.auth Ref.tgt0 Ref.world0) =
    Ok (VDict
      [ (lit "username", VStr (lit "admin"));
        (lit "service_name", VNone);
        (lit "issued_at", VStr (isoformat (reading Ref.world0 0)));
        (lit "expires_at",
          VStr (isoformat (reading Ref.world0 1 + tgt_lifetime Ref.auth)));
        (lit "permissions", default_permissions) ]).
Proof.
  destruct (get_ticket_info_of_tgt (HL := RefLaws.laws) Ref.auth (lit "1") (lit "admin")
              Ref.world0 Ref.tgt0 (advance Ref.world0 3 48) Ref.world0 tgt0_issued)
    as (H & _).
  rewrite H. reflexivity.
Defined.

Lemma builtin_accounts_authenticate_witness :
  exists u,
    authenticate_user Ref.auth (lit "guest") (lit "guest123") Ref.world0 =
      (Ok (Some u), advance Ref.world0 3 48) /\
    User.username u = lit "guest" /\ User.id u = lit "3" /\
    User.roles u = [lit "guest"].
Proof.
  destruct (builtin_accounts_authenticate (HL := RefLaws.laws)
              (HB := RefMoreLaws.bcrypt_laws) Ref.auth (lit "guest") (lit "guest123")
              (lit "3") [lit "guest"] Ref.world0) as (u & Ha & Hu & Hi & Hr & _).
  - right. right. left. reflexivity.
  - exists u. auto.
Defined.

Lemma same_environment_same_key_witness :
  KerberosAuth__init__ RefMore.environ_with_secret Ref.world0 =
    (Ok (mkKerberosAuth (lit "another-secret") (crypto_utils Ref.auth)
           (timedelta_hours 8) (timedelta_hours 2)), Ref.world0) /\
  validate_service_ticket Ref.auth Ref.tgt0 (Ref.world_at 3600000000) =
    validate_service_ticket
      (mkKerberosAuth (lit "another-secret") (crypto_utils Ref.auth)
         (timedelta_hours 8) (timedelta_hours 2)) Ref.tgt0 (Ref.world_at 3600000000).
Proof.
  assert (H2 : KerberosAuth__init__ RefMore.environ_with_secret Ref.world0 =
                 (Ok (mkKerberosAuth (lit "another-secret") (crypto_utils Ref.auth)
                        (timedelta_hours 8) (timedelta_hours 2)), Ref.world0))
    by (vm_compute; reflexivity).
  assert (H1 : KerberosAuth__init__ (fun _ => None) Ref.world0 =
                 (Ok Ref.auth, Ref.world0)) by (vm_compute; reflexivity).
  split; [exact H2|].
  destruct (same_environment_same_key (fun _ => None) RefMore.environ_with_secret
              Ref.world0 Ref.world0 Ref.auth _ Ref.world0 Ref.world0
              eq_refl eq_refl H1 H2)
    as (_ & _ & _ & _ & _ & H).
  apply H.
Defined.

Lemma tgt_opens_every_resource_witness :
  fst (access_resource Ref.auth (Some Ref.tgt0) (lit "payroll")
         (Ref.world_at 3600000000)) =
    Ok (VDict
       [ (lit "resource_id", VStr (lit "payroll"));
         (lit "data", VStr (lit "Protected data for resource " ++ lit "payroll"));
         (lit "accessed_at", VStr (isoformat (reading (Ref.world_at 3600000000) 1))) ],
        200).
Proof.
  rewrite (tgt_opens_every_resource (HL := RefLaws.laws) Ref.auth (lit "1") (lit "admin")
             Ref.world0 Ref.tgt0 (advance Ref.world0 3 48) (Ref.world_at 3600000000)
             (lit "payroll") tgt0_issued).
  - reflexivity.
  - vm_compute. discriminate.
  - vm_compute. discriminate.
Defined.

Lemma service_ticket_opens_resource_witness :
  exists st body,
    generate_service_ticket Ref.auth Ref.tgt0 (lit "reporting-api")
      (Ref.world_at 3600000000) = (Ok st, advance (Ref.world_at 3600000000) 4 48) /\
    fst (access_resource Ref.auth (Some st) (lit "payroll") (Ref.world_at 7200000000))
      = Ok (body, 200).
Proof.
  destruct (service_from_generated (HL := RefLaws.laws) Ref.auth (lit "1") (lit "admin")
              Ref.world0 Ref.tgt0 (advance Ref.world0 3 48) (lit "reporting-api")
              (Ref.world_at 3600000000) tgt0_issued)
    as (st & Hs & Hopen); [vm_compute; discriminate|].
  destruct (service_ticket_opens_resource (HL := RefLaws.laws) Ref.auth (lit "1")
              (lit "admin") Ref.world0 Ref.tgt0 (advance Ref.world0 3 48)
              (lit "reporting-api") (Ref.world_at 3600000000) st _ (lit "payroll")
              (Ref.world_at 7200000000) tgt0_issued Hs)
    as (body & status & Ha & H200 & _).
  - intros ->. vm_compute in Hopen. discriminate Hopen.
  - destruct H200 as (-> & _); [vm_compute; discriminate|].
    exists st, body. split; [exact Hs | exact Ha].
Defined.

Lemma verify_hmac_spec_witness :
  verify_hmac (lit "message") (lit "key")
    (hex_text (hmac_sha256 (ascii_bytes (lit "key")) (ascii_bytes (lit "message"))))
    Ref.world0 = (Ok true, Ref.world0).
Proof.
  destruct (verify_hmac_spec (lit "message") (lit "key") [] (ascii_bytes (lit "key"))
              (ascii_bytes (lit "message")) Ref.world0) as (_ & H & _).
  - vm_compute. reflexivity.
  - vm_compute. reflexivity.
  - exact H.
Defined.

Lemma digests_are_hex_witness :
  exists digest,
    hash_sha256 (lit "message") Ref.world0 = (Ok digest, Ref.world0) /\
    length digest = 64%nat.
Proof.
  destruct (digests_are_hex (HD := RefMoreLaws.more_laws) (lit "message") (lit "key")
              Ref.world0) as (_ & H & _).
  destruct (H (ascii_bytes (lit "message"))) as (digest & Hd & Hl & _).
  - vm_compute. reflexivity.
  - exists digest. split; [exact Hd | exact Hl].
Defined.

Lemma decode_encode_base64_witness :
  exists s,
    encode_base64 [x00; xff; x10] Ref.world0 = (Ok s, Ref.world0) /\
    decode_base64 s Ref.world0 = (Ok [x00; xff; x10], Ref.world0).
Proof.
  destruct (decode_encode_base64 (HL := RefLaws.laws) [x00; xff; x10] Ref.world0)
    as (s & He & _ & Hd).
  exists s. split; [exact He | apply Hd].
Defined.

Lemma aes_decrypt_encrypt_witness :
  exists ciphertext,
    aes_encrypt (lit "attack at dawn") RefMore.key32 Ref.world0 =
      (Ok (ciphertext, entropy_slice Ref.world0 0 16), advance Ref.world0 0 16) /\
    aes_decrypt ciphertext RefMore.key32 (entropy_slice Ref.world0 0 16) Ref.world0 =
      (Ok (lit "attack at dawn"), Ref.world0).
Proof.
  destruct (aes_decrypt_encrypt (HL := RefLaws.laws) (HA := RefMoreLaws.aes_laws)
              (lit "attack at dawn") RefMore.key32 Ref.world0)
    as ((c & He & Hd) & _).
  - eexists. vm_compute. reflexivity.
  - reflexivity.
  - exists c. split; [exact He | apply Hd].
Defined.

Lemma to_json_roundtrip_witness :
  json_loads (UserMethods.to_json Ref.admin) = Some (UserMethods.to_dict Ref.admin).
Proof.
  destruct (to_json_roundtrip (HL := RefLaws.laws) Ref.admin) as (_ & _ & Hsame & _).
  - vm_compute. split; [discriminate | reflexivity].
  - apply Hsame. repeat split; vm_compute; reflexivity.
Defined.

Lemma from_dict_of_to_dict_witness :
  UserMethods.from_dict (UserMethods.to_dict RefMore.guest) Ref.world0 =
    (Raise (KeyError (lit "password_hash")), Ref.world0) /\
  exists o,
    UserMethods.from_dict
      (VDict ((lit "password_hash", VNone) ::
              match UserMethods.to_dict RefMore.guest with VDict d => d | _ => [] end))
      Ref.world0 = (Ok o, advance Ref.world0 1 0) /\
    UserMethods.obj_created_at o = (User.created_at RefMore.guest, None).
Proof.
  destruct (from_dict_of_to_dict (HD := RefMoreLaws.more_laws) RefMore.guest Ref.world0)
    as (H1 & H2).
  split; [exact H1|].
  eexists. split.
  - apply H2.
    + reflexivity.
    + vm_compute. discriminate.
    + intros t Ht. vm_compute in Ht. discriminate Ht.
  - reflexivity.
Defined.

(** The resource endpoint on a missing header, on a string that is no ticket,
    and on a ticket past its expiry. *)
Example access_resource_refusals :
  (exists body, fst (access_resource Ref.auth None (lit "payroll") Ref.world0)
                = Ok (body, 401)) /\
  (exists body, fst (access_resource Ref.auth (Some (lit "not-a-ticket"))
                       (lit "payroll") Ref.world0) = Ok (body, 403)) /\
  (exists body, fst (access_resource Ref.auth (Some Ref.tgt0) (lit "payroll")
                       (Ref.world_at 28801000001)) = Ok (body, 403)).
Proof. repeat split; eexists; vm_compute; reflexivity. Qed.

End MoreConcrete.
